(** * sunrise-rollkit: the SunriseDA adapter

    A shallow embedding of package [sunrise] (the Go adapter between the
    rollkit [da.DA] interface and the Sunrise blob publishing service) and
    the proofs of its specified properties.

    Conventions of the embedding.
    - Go [string] is [string]; [[]byte] is [list byte]; the conversions
      [string(b)] and [[]byte(s)] are written out.
    - [uint32] and [uint64] values are [N], conversions reduce modulo the
      width; Go [int] is [Z].
    - A slice that a function returns can be [nil]: it is a [slice], i.e.
      [option (list A)], and [None] is Go's [nil].
    - Go's [error] interface is [option GoError]; [None] is [nil].
    - Calls that leave the process (net/http) and the JSON codec are fields
      of an environment record [Env]; encoding/base64 and encoding/binary
      are modelled concretely. *)

From Stdlib Require Import List String Ascii NArith ZArith Bool Lia Arith.
From Stdlib.Strings Require Import Byte.
From Stdlib Require Import Permutation.
From Stdlib Require PrimFloat.
Import ListNotations.

Local Open Scope N_scope.

(** ** Go values *)

Module Go.

(** A value of a type implementing [error]; only its message is kept. *)
Inductive GoError : Type := mkError (msg : string).

(** The [error] interface: [None] is [nil]. *)
Definition error : Type := option GoError.

(** A slice value that may be [nil]. *)
Definition slice (A : Type) : Type := option (list A).

Definition nil_slice {A : Type} : slice A := None.

(** The elements of a slice; a [nil] slice has none. *)
Definition elems {A : Type} (s : slice A) : list A :=
  match s with
  | Some l => l
  | None => []
  end.

Definition len {A : Type} (s : slice A) : nat := List.length (elems s).

(** [append(s, x)]: the result is never [nil]. *)
Definition append {A : Type} (s : slice A) (x : A) : slice A :=
  Some (elems s ++ [x]).

(** How a call of a Go function ends. [MissingReturn] is control reaching
    the closing brace of a function that has result parameters. *)
Inductive outcome (A : Type) : Type :=
| Returned (a : A)
| Panicked
| MissingReturn.

Arguments Returned {A} a.
Arguments Panicked {A}.
Arguments MissingReturn {A}.

(** [(T, error)] results of library calls, as a sum. *)
Definition result (A : Type) : Type := (GoError + A)%type.

Definition ok {A : Type} (a : A) : result A := inr a.
Definition fail {A : Type} (e : GoError) : result A := inl e.

Definition rbind {A B : Type} (m : result A) (k : A -> result B) : result B :=
  match m with
  | inl e => inl e
  | inr a => k a
  end.

(** [byte(n)]: conversion of an unsigned integer to [byte] keeps the low
    eight bits. *)
Definition byte_of_N (n : N) : byte :=
  match Byte.of_N (n mod 256) with
  | Some b => b
  | None => x00
  end.

(** [uint32(n)] on an unsigned integer. *)
Definition uint32 (n : N) : N := n mod 2 ^ 32.

(** [make([]byte, n)]. *)
Definition make_bytes (n : nat) : list byte := repeat x00 n.

End Go.

Import Go.

Declare Scope go_scope.
Delimit Scope go_scope with go.
Notation "x <- m ;; k" := (rbind m (fun x => k))
  (at level 61, m at next level, right associativity) : go_scope.

(** ** encoding/binary *)

Module Binary.

(** [binary.BigEndian.PutUint32(b, v)]: writes b[0..3]; the bounds check
    [_ = b[3]] panics on a shorter slice ([None]). The rest of [b] is left
    as it was. *)
Definition PutUint32 (b : list byte) (v : N) : option (list byte) :=
  match b with
  | _ :: _ :: _ :: _ :: rest =>
      Some (byte_of_N (N.shiftr v 24) :: byte_of_N (N.shiftr v 16)
            :: byte_of_N (N.shiftr v 8) :: byte_of_N v :: rest)
  | _ => None
  end.

(** The value a big-endian byte sequence denotes. *)
Definition be_value (b : list byte) : N :=
  fold_left (fun acc x => acc * 256 + Byte.to_N x) b 0.

End Binary.

(** ** The adapter's types

    Field [Blob] of [PublishRequest] and of [GetBlobResponse] and the shard
    counts of [PublishRequest] carry a prefix here ([req_], [resp_]): the
    names are taken by the type [Blob] and by the fields of [Config]. *)

Definition Blob : Type := list byte.
Definition ID : Type := list byte.
Definition Proof_ : Type := list byte.
Definition Commitment : Type := list byte.
Definition Namespace : Type := list byte.

(** [context.Context], as far as a caller can vary it. *)
Record Context : Type := mkContext {
  ctx_cancelled : bool;
  ctx_deadline : option N
}.

Record PublishRequest : Type := mkPublishRequest {
  req_Blob : string;
  req_DataShardCount : Z;
  req_ParityShardCount : Z;
  req_Protocol : string
}.

Record PublishResponse : Type := mkPublishResponse {
  TxHash : string;
  MetadataUri : string
}.

Record GetBlobResponse : Type := mkGetBlobResponse {
  resp_Blob : string
}.

Record Config : Type := mkConfig {
  ServerURL : string;
  DataShardCount : N;
  ParityShardCount : N;
  GRPCServerAddress : string
}.

Record SunriseDA : Type := mkSunriseDA {
  ctx : Context;
  config : Config
}.

Definition NewSunriseDA (ctx : Context) (config : Config) : SunriseDA :=
  {| ctx := ctx; config := config |}.

(** ** Operations without remote calls *)

Definition MaxBlobSize (sunrise : SunriseDA) (ctx : Context) : N * error :=
  let maxBlobSize := (64 * 64 * 500) mod 2 ^ 64 in
  (maxBlobSize, None).

Definition GetIDs (c : SunriseDA) (ctx : Context) (height : N)
    (namespace : Namespace) : outcome (slice ID * error) :=
  let heightAsUint32 := uint32 height in
  let ids := make_bytes 8 in
  match Binary.PutUint32 ids heightAsUint32 with
  | Some ids => Returned (Some [ids], None)
  | None => Panicked
  end.

Definition GetProofs (sunrise : SunriseDA) (ctx : Context) (ids : list ID)
    (namespace : Namespace) : slice Proof_ * error :=
  let proofs : slice Proof_ := nil_slice in
  (proofs, None).

Definition Commit (sunrise : SunriseDA) (ctx : Context) (daBlobs : list Blob)
    (namespace : Namespace) : slice Commitment * error :=
  let commitments : slice Commitment := nil_slice in
  (commitments, None).

Definition Validate (sunrise : SunriseDA) (ctx : Context) (ids : list ID)
    (daProofs : list Proof_) (namespace : Namespace) : slice bool * error :=
  let valid : slice bool := nil_slice in
  (valid, None).

(** ** encoding/base64, [StdEncoding]

    The standard alphabet of RFC 4648 with [=] padding, not strict: the
    decoder skips carriage returns and line feeds and does not look at the
    unused low bits of the last quantum. [CorruptInputError] carries the
    offending offset in Go; the offset is not kept here. *)

Module Base64.

Definition encodeStd : string :=
  "ABCDEFGHIJKLMNOPQRSTUVWXYZabcdefghijklmnopqrstuvwxyz0123456789+/"%string.

Definition padChar : ascii := "="%char.

Definition CorruptInputError : GoError :=
  mkError "illegal base64 data"%string.

(** [enc.encode[i]] *)
Definition encode (i : N) : ascii :=
  match String.get (N.to_nat i) encodeStd with
  | Some c => c
  | None => Ascii.zero
  end.

Fixpoint index_from (c : ascii) (s : string) (i : N) : N :=
  match s with
  | EmptyString => 255
  | String d s' => if Ascii.eqb c d then i else index_from c s' (i + 1)
  end.

(** [enc.decodeMap[c]]: the position of [c] in the alphabet, 0xff for a
    character outside it. *)
Definition decodeMap (c : ascii) : N := index_from c encodeStd 0.

(** The encoder, three input bytes to four characters, with the remainder
    of one or two bytes padded. *)
Fixpoint EncodeToString (src : list byte) : string :=
  match src with
  | [] => EmptyString
  | [s0] =>
      let val := N.shiftl (Byte.to_N s0) 16 in
      String (encode (N.land (N.shiftr val 18) 63))
        (String (encode (N.land (N.shiftr val 12) 63))
          (String padChar (String padChar EmptyString)))
  | [s0; s1] =>
      let val := N.lor (N.shiftl (Byte.to_N s0) 16) (N.shiftl (Byte.to_N s1) 8) in
      String (encode (N.land (N.shiftr val 18) 63))
        (String (encode (N.land (N.shiftr val 12) 63))
          (String (encode (N.land (N.shiftr val 6) 63))
            (String padChar EmptyString)))
  | s0 :: s1 :: s2 :: rest =>
      let val := N.lor (N.lor (N.shiftl (Byte.to_N s0) 16)
                              (N.shiftl (Byte.to_N s1) 8)) (Byte.to_N s2) in
      String (encode (N.land (N.shiftr val 18) 63))
        (String (encode (N.land (N.shiftr val 12) 63))
          (String (encode (N.land (N.shiftr val 6) 63))
            (String (encode (N.land val 63)) (EncodeToString rest))))
  end.

Definition is_newline (c : ascii) : bool :=
  Ascii.eqb c "010"%char || Ascii.eqb c "013"%char.

Fixpoint skip_newlines (s : string) : string :=
  match s with
  | String c s' => if is_newline c then skip_newlines s' else s
  | EmptyString => EmptyString
  end.

(** [dbuf[0]<<18 | dbuf[1]<<12 | dbuf[2]<<6 | dbuf[3]]; the entries of
    [dbuf] not yet filled are zero. *)
Definition assemble (dbuf : list N) : N :=
  N.lor (N.lor (N.lor (N.shiftl (nth 0 dbuf 0) 18) (N.shiftl (nth 1 dbuf 0) 12))
               (N.shiftl (nth 2 dbuf 0) 6)) (nth 3 dbuf 0).

(** The [dlen - 1] bytes a quantum of [dlen] characters yields. *)
Definition quantum_bytes (val : N) (dlen : nat) : list byte :=
  firstn (dlen - 1)
    [byte_of_N (N.shiftr val 16); byte_of_N (N.shiftr val 8); byte_of_N val].

(** The decoder's loop over [decodeQuantum], one character at a time:
    [dbuf] holds the sextets of the open quantum, [dst] what is decoded. *)
Fixpoint decode_from (src : string) (dbuf : list N) (dst : list byte)
    : result (list byte) :=
  match src with
  | EmptyString =>
      match dbuf with
      | [] => ok dst
      | _ => fail CorruptInputError
      end
  | String c src' =>
      let out := decodeMap c in
      if negb (out =? 255) then
        let dbuf' := (dbuf ++ [out])%list in
        if (List.length dbuf' =? 4)%nat
        then decode_from src' [] (dst ++ quantum_bytes (assemble dbuf') 4)
        else decode_from src' dbuf' dst
      else if is_newline c then decode_from src' dbuf dst
      else if negb (Ascii.eqb c padChar) then fail CorruptInputError
      else
        match dbuf with
        | [] | [_] => fail CorruptInputError
        | [_; _] =>
            match skip_newlines src' with
            | EmptyString => fail CorruptInputError
            | String c' src'' =>
                if negb (Ascii.eqb c' padChar) then fail CorruptInputError
                else
                  match skip_newlines src'' with
                  | EmptyString => ok (dst ++ quantum_bytes (assemble dbuf) 2)
                  | String _ _ => fail CorruptInputError
                  end
            end
        | _ =>
            match skip_newlines src' with
            | EmptyString => ok (dst ++ quantum_bytes (assemble dbuf) 3)
            | String _ _ => fail CorruptInputError
            end
        end
  end.

Definition DecodeString (s : string) : result (list byte) :=
  decode_from s [] [].

End Base64.

(** ** The environment: net/http and encoding/json

    A [Response] is reduced to what [io.ReadAll(response.Body)] yields.
    The status code is not part of it: the adapter never reads it. The
    deferred [response.Body.Close()] only logs and is left out. *)

Record Request : Type := mkRequest {
  Method : string;
  URL : string
}.

Record Response : Type := mkResponse {
  Body : result (list byte)
}.

(** One run of the outside world. [http_Post i] answers the call made by
    the goroutine started for the [i]-th blob of a batch, [client_Do k] the
    call made in the [k]-th iteration of [Get]'s loop. *)
Record Env : Type := mkEnv {
  json_Marshal : PublishRequest -> result (list byte);
  json_Unmarshal_PublishResponse : list byte -> result PublishResponse;
  json_Unmarshal_GetBlobResponse : list byte -> result GetBlobResponse;
  http_Post : nat -> string -> string -> list byte -> result Response;
  http_NewRequest : string -> string -> result Request;
  client_Do : nat -> Request -> result Response
}.

(** Remote calls a function performs, in order. *)
Inductive Event : Type :=
| EvDo (k : nat) (req : Request).

(** A computation that can fail and that logs its remote calls. *)
Definition IO (A : Type) : Type := (result A * list Event)%type.

Definition io_ret {A : Type} (a : A) : IO A := (inr a, []).

Definition io_lift {A : Type} (r : result A) : IO A := (r, []).

Definition io_bind {A B : Type} (m : IO A) (k : A -> IO B) : IO B :=
  match m with
  | (inl e, t) => (inl e, t)
  | (inr a, t) => let (r, t') := k a in (r, t ++ t')
  end.

Notation "x <~ m ;; k" := (io_bind m (fun x => k))
  (at level 61, m at next level, right associativity) : go_scope.

Local Open Scope go_scope.

(** ** Submit *)

Definition float64 : Type := PrimFloat.float.

(** The two buffered channels of [Submit], oldest element first. Both have
    capacity [len(daBlobs)] and every goroutine sends once, so no send
    blocks. *)
Record Chans : Type := mkChans {
  resultChan : list PublishResponse;
  errorChan : list error
}.

(** Lines 74-80: the request built for one blob. *)
Definition publish_request (sunrise : SunriseDA) (blob : Blob) : PublishRequest :=
  let encodedBlob := Base64.EncodeToString blob in
  {| req_Blob := encodedBlob;
     req_DataShardCount := Z.of_N (DataShardCount (config sunrise));
     req_ParityShardCount := Z.of_N (ParityShardCount (config sunrise));
     req_Protocol := "ipfs" |}.

(** The body of the goroutine started for blob number [i], up to the value
    it is about to send. *)
Definition publish (env : Env) (sunrise : SunriseDA) (i : nat) (blob : Blob)
    : result PublishResponse :=
  let requestData := publish_request sunrise blob in
  requestBody <- json_Marshal env requestData ;;
  response <- http_Post env i (ServerURL (config sunrise) ++ "/api/publish")
                "application/json" requestBody ;;
  responseData <- Body response ;;
  publishResponse <- json_Unmarshal_PublishResponse env responseData ;;
  ok {| TxHash := TxHash publishResponse;
        MetadataUri := MetadataUri publishResponse |}.

(** The goroutine's one send: the error on [errorChan], or the response on
    [resultChan]. *)
Definition Submit_worker (env : Env) (sunrise : SunriseDA) (i : nat)
    (blob : Blob) (ch : Chans) : Chans :=
  match publish env sunrise i blob with
  | inl err =>
      {| resultChan := resultChan ch; errorChan := errorChan ch ++ [Some err] |}
  | inr r =>
      {| resultChan := resultChan ch ++ [r]; errorChan := errorChan ch |}
  end.

(** The goroutines run concurrently. What [Submit] can observe of their
    interleaving is the order of their sends, [sched]: the indices of the
    blobs in the order in which their goroutines send. [wg.Wait()] lets the
    channels be closed only after the last send. *)
Definition run_workers (env : Env) (sunrise : SunriseDA) (daBlobs : list Blob)
    (sched : list nat) : Chans :=
  fold_left
    (fun ch i =>
       match nth_error daBlobs i with
       | Some blob => Submit_worker env sunrise i blob ch
       | None => ch
       end)
    sched {| resultChan := []; errorChan := [] |}.

(** What the goroutine of blob number [i] sends on each channel. *)
Definition sent_results (env : Env) (sunrise : SunriseDA) (daBlobs : list Blob)
    (i : nat) : list PublishResponse :=
  match nth_error daBlobs i with
  | Some blob =>
      match publish env sunrise i blob with
      | inr r => [r]
      | inl _ => []
      end
  | None => []
  end.

Definition sent_errors (env : Env) (sunrise : SunriseDA) (daBlobs : list Blob)
    (i : nat) : list error :=
  match nth_error daBlobs i with
  | Some blob =>
      match publish env sunrise i blob with
      | inr _ => []
      | inl err => [Some err]
      end
  | None => []
  end.

(** A schedule of a batch of [n] blobs: every goroutine sends once. *)
Definition schedule_of (n : nat) (sched : list nat) : Prop :=
  Permutation sched (seq 0 n).

(** [<-c] on a closed channel: the oldest element, the zero value once the
    channel is drained. *)
Definition recv_closed (c : list error) : error :=
  match c with
  | e :: _ => e
  | [] => None
  end.

(** Lines 132-136: [ids] after the loop over [resultChan]. *)
Definition Submit_collect (results : list PublishResponse) : slice ID :=
  fold_left
    (fun ids result => append ids (list_byte_of_string (MetadataUri result)))
    results nil_slice.

(** [Submit]. The function body ends after the error check: when the value
    received from [errorChan] is [nil] no return statement is reached. *)
Definition Submit (env : Env) (sunrise : SunriseDA) (ctx : Context)
    (daBlobs : list Blob) (gasPrice : float64) (namespace : Namespace)
    (sched : list nat) : outcome (slice ID * error) :=
  let ch := run_workers env sunrise daBlobs sched in
  let ids := Submit_collect (resultChan ch) in
  match recv_closed (errorChan ch) with
  | Some err => Returned (nil_slice, Some err)
  | None => MissingReturn
  end.

(** ** Get *)

(** [client.Do(req)], logged. *)
Definition do_request (env : Env) (k : nat) (req : Request) : IO Response :=
  (client_Do env k req, [EvDo k req]).

(** The URL [fmt.Sprintf] builds for a locator. *)
Definition get_blob_url (sunrise : SunriseDA) (metadataUri : string) : string :=
  ServerURL (config sunrise) ++ "/api/get-blob?metadata_uri=" ++ metadataUri.

(** One iteration of the loop of [Get], for the [k]-th identifier. *)
Definition Get_fetch (env : Env) (sunrise : SunriseDA) (k : nat) (id : ID)
    : IO Blob :=
  let metadataUri := string_of_list_byte id in
  req <~ io_lift (http_NewRequest env "GET" (get_blob_url sunrise metadataUri)) ;;
  response <~ do_request env k req ;;
  responseData <~ io_lift (Body response) ;;
  blobResponse <~ io_lift (json_Unmarshal_GetBlobResponse env responseData) ;;
  let blob := resp_Blob blobResponse in
  decodedBlob <~ io_lift (Base64.DecodeString blob) ;;
  io_ret decodedBlob.

(** The iteration up to the decoding: the [blob] field of the response
    for the [k]-th identifier. *)
Definition Get_response (env : Env) (sunrise : SunriseDA) (k : nat) (id : ID)
    : IO string :=
  let metadataUri := string_of_list_byte id in
  req <~ io_lift (http_NewRequest env "GET" (get_blob_url sunrise metadataUri)) ;;
  response <~ do_request env k req ;;
  responseData <~ io_lift (Body response) ;;
  blobResponse <~ io_lift (json_Unmarshal_GetBlobResponse env responseData) ;;
  io_ret (resp_Blob blobResponse).

Fixpoint Get_loop (env : Env) (sunrise : SunriseDA) (k : nat) (ids : list ID)
    (blobs : slice Blob) : IO (slice Blob) :=
  match ids with
  | [] => io_ret blobs
  | id :: ids' =>
      decodedBlob <~ Get_fetch env sunrise k id ;;
      Get_loop env sunrise (S k) ids' (append blobs decodedBlob)
  end.

(** [Get]: the returned pair, and the remote calls made. *)
Definition Get (env : Env) (sunrise : SunriseDA) (ctx : Context)
    (ids : list ID) (namespace : Namespace)
    : (slice Blob * error) * list Event :=
  match Get_loop env sunrise 0 ids nil_slice with
  | (inr blobs, tr) => ((blobs, None), tr)
  | (inl err, tr) => ((nil_slice, Some err), tr)
  end.

(** ** A concrete world

    A small remote service used to run the adapter on concrete inputs. Its
    JSON codec is the identity on the one field the adapter reads; blob
    number [i] of a batch is stored under the locator [loc<i+1>]. *)

Module Mock.

Definition background : Context :=
  {| ctx_cancelled := false; ctx_deadline := None |}.

Definition cancelled : Context :=
  {| ctx_cancelled := true; ctx_deadline := Some 0 |}.

Definition cfg : Config :=
  {| ServerURL := "http://da";
     DataShardCount := 10;
     ParityShardCount := 10;
     GRPCServerAddress := "localhost:3000" |}.

Definition sunrise : SunriseDA := NewSunriseDA background cfg.

Definition locator (i : nat) : string :=
  match i with
  | O => "loc1"
  | S O => "loc2"
  | _ => "loc3"
  end.

(** What the fetch endpoint holds: locator and base64 payload. *)
Definition store : list (string * string) :=
  [("http://da/api/get-blob?metadata_uri=loc1", "QQ==");
   ("http://da/api/get-blob?metadata_uri=loc2", "QkI=");
   ("http://da/api/get-blob?metadata_uri=loc3", "Q*==")]%string.

Fixpoint lookup (url : string) (st : list (string * string)) : option string :=
  match st with
  | [] => None
  | (u, v) :: st' => if String.eqb url u then Some v else lookup url st'
  end.

Definition refused : GoError := mkError "connection refused".
Definition not_found : GoError := mkError "unexpected end of JSON input".

(** [down i]: does the publish call of blob number [i] fail? *)
Definition env (down : nat -> bool) : Env :=
  {| json_Marshal := fun r => ok (list_byte_of_string (req_Blob r));
     json_Unmarshal_PublishResponse := fun body =>
       ok {| TxHash := "tx"; MetadataUri := string_of_list_byte body |};
     json_Unmarshal_GetBlobResponse := fun body =>
       ok {| resp_Blob := string_of_list_byte body |};
     http_Post := fun i _ _ _ =>
       if down i then fail refused
       else ok {| Body := ok (list_byte_of_string (locator i)) |};
     http_NewRequest := fun m url => ok {| Method := m; URL := url |};
     client_Do := fun _ req =>
       match lookup (URL req) store with
       | Some v => ok {| Body := ok (list_byte_of_string v) |}
       | None => fail not_found
       end |}.

Definition up : Env := env (fun _ => false).

(** The publish call of the second blob fails. *)
Definition second_down : Env := env (fun i => Nat.eqb i 1).

Definition timed_out : GoError := mkError "i/o timeout".

(** Every publish call fails: the first blob's is refused, the others time
    out. *)
Definition both_down : Env :=
  {| json_Marshal := json_Marshal up;
     json_Unmarshal_PublishResponse := json_Unmarshal_PublishResponse up;
     json_Unmarshal_GetBlobResponse := json_Unmarshal_GetBlobResponse up;
     http_Post := fun i _ _ _ =>
       match i with
       | O => fail refused
       | S _ => fail timed_out
       end;
     http_NewRequest := http_NewRequest up;
     client_Do := client_Do up |}.

Definition blobA : Blob := list_byte_of_string "A".
Definition blobBB : Blob := list_byte_of_string "BB".

End Mock.

(** ** Proof automation *)

(** The powers of two of the codecs, as numerals. *)
Ltac pow2_consts :=
  change (2 ^ 6) with 64 in *; change (2 ^ 8) with 256 in *;
  change (2 ^ 12) with 4096 in *; change (2 ^ 16) with 65536 in *;
  change (2 ^ 18) with 262144 in *.

(** Linear arithmetic with division and remainder by constants. *)
Ltac divmod_lia := pow2_consts; zify; Z.to_euclidean_division_equations; lia.

(** * Properties *)

(** ** encoding/base64 on known vectors *)

Example base64_encode_A :
  Base64.EncodeToString (list_byte_of_string "A"%string) = "QQ=="%string.
Proof. reflexivity. Qed.

Example base64_encode_BB :
  Base64.EncodeToString (list_byte_of_string "BB"%string) = "QkI="%string.
Proof. reflexivity. Qed.

Example base64_encode_Man :
  Base64.EncodeToString (list_byte_of_string "Many"%string) = "TWFueQ=="%string.
Proof. reflexivity. Qed.

Example base64_decode_Man :
  Base64.DecodeString "TWFueQ=="%string = ok (list_byte_of_string "Many"%string).
Proof. reflexivity. Qed.

Example base64_decode_newline :
  Base64.DecodeString (String "T" (String "010" "WFu"))%string = ok (list_byte_of_string "Man"%string).
Proof. reflexivity. Qed.

Example base64_decode_bad :
  Base64.DecodeString "TWF"%string = fail Base64.CorruptInputError.
Proof. reflexivity. Qed.

Example base64_decode_garbage :
  Base64.DecodeString "TQ==TWFu"%string = fail Base64.CorruptInputError.
Proof. reflexivity. Qed.

(** ** Concrete runs *)

Example Get_two_blobs :
  Get Mock.up Mock.sunrise Mock.background
      [list_byte_of_string "loc2"; list_byte_of_string "loc1"] []
  = ((Some [Mock.blobBB; Mock.blobA], None),
     [EvDo 0 {| Method := "GET"; URL := "http://da/api/get-blob?metadata_uri=loc2" |};
      EvDo 1 {| Method := "GET"; URL := "http://da/api/get-blob?metadata_uri=loc1" |}]).
Proof. reflexivity. Qed.

Example Submit_collect_two_blobs :
  Submit_collect
    (resultChan (run_workers Mock.up Mock.sunrise [Mock.blobA; Mock.blobBB] [1; 0]%nat))
  = Some [list_byte_of_string "loc2"; list_byte_of_string "loc1"].
Proof. reflexivity. Qed.

Example Submit_second_down :
  Submit Mock.second_down Mock.sunrise Mock.background [Mock.blobA; Mock.blobBB]
         PrimFloat.zero [] [0; 1]%nat
  = Returned (None, Some Mock.refused).
Proof. reflexivity. Qed.

(** ** Bytes and unsigned integers *)

Section Bytes.

Lemma to_N_lt_256 (b : byte) : Byte.to_N b < 256.
Proof. pose proof (Byte.to_N_bounded b). lia. Qed.

(** [byte(n)] is the byte whose value is [n mod 256]. *)
Lemma to_N_byte_of_N (n : N) : Byte.to_N (byte_of_N n) = n mod 256.
Proof.
  unfold byte_of_N.
  destruct (Byte.of_N (n mod 256)) as [b|] eqn:E.
  - now apply Byte.to_of_N.
  - apply Byte.of_N_None_iff in E.
    pose proof (N.mod_lt n 256). lia.
Qed.

Lemma byte_of_N_eq (n : N) (b : byte) :
  n mod 256 = Byte.to_N b -> byte_of_N n = b.
Proof.
  intros H. unfold byte_of_N. rewrite H, Byte.of_to_N. reflexivity.
Qed.

Lemma byte_of_to_N (b : byte) : byte_of_N (Byte.to_N b) = b.
Proof.
  apply byte_of_N_eq, N.mod_small, to_N_lt_256.
Qed.

Lemma byte_of_N_mod (n : N) : byte_of_N (n mod 256) = byte_of_N n.
Proof.
  unfold byte_of_N. now rewrite N.Div0.mod_mod.
Qed.

Lemma uint32_lt (n : N) : uint32 n < 2 ^ 32.
Proof. unfold uint32. apply N.mod_lt. discriminate. Qed.

Lemma uint32_idem (n : N) : uint32 (uint32 n) = uint32 n.
Proof. unfold uint32. apply N.Div0.mod_mod. Qed.

End Bytes.

(** ** encoding/binary *)

(** The four bytes [PutUint32] writes denote the value written. *)
Lemma be_value_PutUint32 (v : N) (rest : list byte) :
  v < 2 ^ 32 ->
  exists b0 b1 b2 b3,
    Binary.PutUint32 (x00 :: x00 :: x00 :: x00 :: rest) v
      = Some (b0 :: b1 :: b2 :: b3 :: rest)
    /\ Binary.be_value [b0; b1; b2; b3] = v.
Proof.
  intros Hv. do 4 eexists. split; [reflexivity|].
  unfold Binary.be_value. cbn [fold_left].
  rewrite !to_N_byte_of_N, !N.shiftr_div_pow2.
  change (2 ^ 24) with 16777216. change (2 ^ 16) with 65536.
  change (2 ^ 8) with 256. change (2 ^ 32) with 4294967296 in Hv.
  zify. Z.to_euclidean_division_equations. lia.
Qed.

(** ** MaxBlobSize, GetProofs, Commit, Validate *)

(** C7. [MaxBlobSize] returns 64*64*500 = 2,048,000 and a nil error,
    whatever the receiver and the context, cancelled or not. *)
Theorem MaxBlobSize_constant (sunrise : SunriseDA) (ctx : Context) :
  MaxBlobSize sunrise ctx = (64 * 64 * 500, None)
  /\ MaxBlobSize sunrise ctx = (2048000, None).
Proof. split; reflexivity. Qed.

(** C8. [GetProofs], [Commit] and [Validate] return an empty (nil)
    sequence and a nil error for every input, non-empty lists included. *)
Theorem stubs_return_empty (sunrise : SunriseDA) (ctx : Context)
    (ids : list ID) (daBlobs : list Blob) (daProofs : list Proof_)
    (namespace : Namespace) :
  GetProofs sunrise ctx ids namespace = (None, None)
  /\ Commit sunrise ctx daBlobs namespace = (None, None)
  /\ Validate sunrise ctx ids daProofs namespace = (None, None)
  /\ elems (fst (GetProofs sunrise ctx ids namespace)) = []
  /\ elems (fst (Commit sunrise ctx daBlobs namespace)) = []
  /\ elems (fst (Validate sunrise ctx ids daProofs namespace)) = [].
Proof. repeat split. Qed.

(** ** GetIDs *)

(** What [GetIDs] returns, in closed form. *)
Lemma GetIDs_eq (c : SunriseDA) (ctx : Context) (height : N) (namespace : Namespace) :
  GetIDs c ctx height namespace
  = Returned
      (Some [[byte_of_N (N.shiftr (uint32 height) 24);
              byte_of_N (N.shiftr (uint32 height) 16);
              byte_of_N (N.shiftr (uint32 height) 8);
              byte_of_N (uint32 height);
              x00; x00; x00; x00]], None).
Proof. reflexivity. Qed.

(** C3, as the specification states it, fails at height 1: the last four
    bytes of the identifier are zero, they do not denote the height. *)
Lemma GetIDs_last_four_bytes_counterexample :
  exists id : ID,
    GetIDs Mock.sunrise Mock.background 1 [] = Returned (Some [id], None)
    /\ List.length id = 8%nat
    /\ skipn 4 id = [x00; x00; x00; x00]
    /\ Binary.be_value (skipn 4 id) <> 1 mod 2 ^ 32.
Proof.
  eexists. split; [reflexivity|]. repeat split. discriminate.
Qed.

(** C3, amended. For every height, [GetIDs] returns one identifier and a
    nil error; the identifier has 8 bytes; its first four bytes are the
    big-endian representation of the height modulo 2^32 and its last four
    bytes are zero; a height of 2^32 or more gives the identifier of its
    low 32 bits. *)
Theorem GetIDs_height_encoding (c : SunriseDA) (ctx : Context) (height : N)
    (namespace : Namespace) :
  exists id : ID,
    GetIDs c ctx height namespace = Returned (Some [id], None)
    /\ List.length id = 8%nat
    /\ Binary.be_value (firstn 4 id) = height mod 2 ^ 32
    /\ skipn 4 id = [x00; x00; x00; x00]
    /\ GetIDs c ctx (height mod 2 ^ 32) namespace
       = GetIDs c ctx height namespace.
Proof.
  destruct (be_value_PutUint32 (uint32 height) [x00; x00; x00; x00]
              (uint32_lt height)) as (b0 & b1 & b2 & b3 & Hput & Hval).
  exists [b0; b1; b2; b3; x00; x00; x00; x00].
  unfold GetIDs. change (make_bytes 8) with [x00; x00; x00; x00; x00; x00; x00; x00].
  change (height mod 2 ^ 32) with (uint32 height).
  rewrite uint32_idem, Hput.
  repeat split. exact Hval.
Qed.

(** C9. The identifier [GetIDs] returns is a function of the height alone:
    two calls at the same height return the same single identifier, byte for
    byte, whatever the receivers (their configuration and stored context),
    the context arguments and the namespaces. *)
Theorem GetIDs_depends_on_height_only (c1 c2 : SunriseDA) (ctx1 ctx2 : Context)
    (namespace1 namespace2 : Namespace) (height : N) :
  GetIDs c1 ctx1 height namespace1 = GetIDs c2 ctx2 height namespace2
  /\ exists id : ID,
       GetIDs c1 ctx1 height namespace1 = Returned (Some [id], None)
       /\ GetIDs c2 ctx2 height namespace2 = Returned (Some [id], None).
Proof.
  rewrite (GetIDs_eq c1), (GetIDs_eq c2).
  split; [reflexivity|]. eexists. split; reflexivity.
Qed.

(** ** encoding/base64: decoding inverts encoding *)

Section BitArithmetic.

(** A left shift leaves the low bits free. *)
Lemma land_shiftl_small (q b k : N) : b < 2 ^ k -> N.land (N.shiftl q k) b = 0.
Proof.
  intros Hb. apply N.bits_inj_0. intros n. rewrite N.land_spec.
  destruct (N.lt_ge_cases n k) as [Hn|Hn].
  - now rewrite N.shiftl_spec_low.
  - rewrite <- (N.mod_small b (2 ^ k)) by assumption.
    rewrite N.mod_pow2_bits_high by assumption. apply andb_false_r.
Qed.

(** [a | b] is [a + b] when [b] fits in the bits [a] leaves free. *)
Lemma lor_add (a b k : N) : a mod 2 ^ k = 0 -> b < 2 ^ k -> N.lor a b = a + b.
Proof.
  intros Ha Hb.
  assert (E : a = N.shiftl (a / 2 ^ k) k).
  { rewrite N.shiftl_mul_pow2. rewrite (N.div_mod a (2 ^ k)) at 1.
    - rewrite Ha. lia.
    - apply N.pow_nonzero. discriminate. }
  assert (L : N.land a b = 0) by (rewrite E; now apply land_shiftl_small).
  now rewrite <- N.lxor_lor, N.add_nocarry_lxor.
Qed.

End BitArithmetic.

Section Base64Roundtrip.

Import Base64.

(** [val>>k & 0x3F] is a sextet. *)
Lemma sextet_eq (v k : N) : N.land (N.shiftr v k) 63 = (v / 2 ^ k) mod 64.
Proof.
  rewrite N.shiftr_div_pow2. change 63 with (N.ones 6). now rewrite N.land_ones.
Qed.

Lemma sextet_lt (v k : N) : N.land (N.shiftr v k) 63 < 64.
Proof. rewrite sextet_eq. now apply N.mod_lt. Qed.

Lemma land_63_lt (v : N) : N.land v 63 < 64.
Proof.
  change 63 with (N.ones 6). rewrite N.land_ones. now apply N.mod_lt.
Qed.

(** The encoder's word for three bytes. *)
Lemma pack3 (x y z : N) : x < 256 -> y < 256 -> z < 256 ->
  N.lor (N.lor (N.shiftl x 16) (N.shiftl y 8)) z = x * 65536 + y * 256 + z.
Proof.
  intros. rewrite !N.shiftl_mul_pow2.
  rewrite (lor_add (x * 2 ^ 16) (y * 2 ^ 8) 16) by divmod_lia.
  rewrite (lor_add _ z 8) by divmod_lia. divmod_lia.
Qed.

(** The decoder's word for four sextets. *)
Lemma unpack4 (d0 d1 d2 d3 : N) : d0 < 64 -> d1 < 64 -> d2 < 64 -> d3 < 64 ->
  assemble [d0; d1; d2; d3] = d0 * 262144 + d1 * 4096 + d2 * 64 + d3.
Proof.
  intros. unfold assemble. cbn [nth]. rewrite !N.shiftl_mul_pow2.
  rewrite (lor_add (d0 * 2 ^ 18) (d1 * 2 ^ 12) 18) by divmod_lia.
  rewrite (lor_add _ (d2 * 2 ^ 6) 12) by divmod_lia.
  rewrite (lor_add _ d3 6) by divmod_lia. divmod_lia.
Qed.

Lemma assemble3 (d0 d1 d2 : N) : assemble [d0; d1; d2] = assemble [d0; d1; d2; 0].
Proof. reflexivity. Qed.

Lemma assemble2 (d0 d1 : N) : assemble [d0; d1] = assemble [d0; d1; 0; 0].
Proof. reflexivity. Qed.

(** The alphabet is read back at the position it was taken from. *)
Lemma decodeMap_encode (i : N) : i < 64 -> decodeMap (encode i) = i.
Proof.
  intros Hi.
  assert (T : forallb (fun n => decodeMap (encode (N.of_nat n)) =? N.of_nat n)
                (seq 0 64) = true) by (vm_compute; reflexivity).
  rewrite forallb_forall in T.
  specialize (T (N.to_nat i)). rewrite N2Nat.id in T.
  apply N.eqb_eq, T, in_seq. lia.
Qed.

(** One step of the decoder on a character of the alphabet. *)
Lemma decode_from_alphabet (i : N) (s : string) (dbuf : list N) (dst : list byte) :
  i < 64 ->
  decode_from (String (encode i) s) dbuf dst
  = if (List.length (dbuf ++ [i]) =? 4)%nat
    then decode_from s [] (dst ++ quantum_bytes (assemble (dbuf ++ [i])) 4)
    else decode_from s (dbuf ++ [i]) dst.
Proof.
  intros Hi. cbn [decode_from]. rewrite (decodeMap_encode i Hi).
  replace (i =? 255) with false by (symmetry; apply N.eqb_neq; lia).
  reflexivity.
Qed.

(** A full quantum: three bytes survive the four characters. *)
Lemma quantum_bytes_4 (s0 s1 s2 : byte) :
  let val := N.lor (N.lor (N.shiftl (Byte.to_N s0) 16) (N.shiftl (Byte.to_N s1) 8))
                   (Byte.to_N s2) in
  quantum_bytes
    (assemble [N.land (N.shiftr val 18) 63; N.land (N.shiftr val 12) 63;
               N.land (N.shiftr val 6) 63; N.land val 63]) 4
  = [s0; s1; s2].
Proof.
  intros val.
  pose proof (to_N_lt_256 s0). pose proof (to_N_lt_256 s1).
  pose proof (to_N_lt_256 s2).
  rewrite unpack4 by (apply sextet_lt || apply land_63_lt).
  rewrite <- (N.shiftr_0_r val) at 4. rewrite !sextet_eq.
  subst val. rewrite pack3 by assumption.
  unfold quantum_bytes. cbn [Nat.sub firstn]. rewrite !N.shiftr_div_pow2.
  f_equal; [|f_equal; [|f_equal]]; apply byte_of_N_eq;
    change (2 ^ 0) with 1; divmod_lia.
Qed.

(** Two bytes and one padding character. *)
Lemma quantum_bytes_3 (s0 s1 : byte) :
  let val := N.lor (N.shiftl (Byte.to_N s0) 16) (N.shiftl (Byte.to_N s1) 8) in
  quantum_bytes
    (assemble [N.land (N.shiftr val 18) 63; N.land (N.shiftr val 12) 63;
               N.land (N.shiftr val 6) 63]) 3
  = [s0; s1].
Proof.
  intros val.
  pose proof (to_N_lt_256 s0). pose proof (to_N_lt_256 s1).
  rewrite assemble3, unpack4 by (apply sextet_lt || reflexivity).
  rewrite !sextet_eq.
  assert (E : val = Byte.to_N s0 * 65536 + Byte.to_N s1 * 256 + 0).
  { subst val. rewrite <- (pack3 _ _ 0) by (assumption || reflexivity).
    now rewrite N.lor_0_r. }
  rewrite E.
  unfold quantum_bytes. cbn [Nat.sub firstn]. rewrite !N.shiftr_div_pow2.
  f_equal; [|f_equal]; apply byte_of_N_eq; divmod_lia.
Qed.

(** One byte and two padding characters. *)
Lemma quantum_bytes_2 (s0 : byte) :
  let val := N.shiftl (Byte.to_N s0) 16 in
  quantum_bytes
    (assemble [N.land (N.shiftr val 18) 63; N.land (N.shiftr val 12) 63]) 2
  = [s0].
Proof.
  intros val.
  pose proof (to_N_lt_256 s0).
  rewrite assemble2, unpack4 by (apply sextet_lt || reflexivity).
  rewrite !sextet_eq.
  assert (E : val = Byte.to_N s0 * 65536).
  { subst val. now rewrite N.shiftl_mul_pow2. }
  rewrite E.
  unfold quantum_bytes. cbn [Nat.sub firstn]. rewrite !N.shiftr_div_pow2.
  f_equal; apply byte_of_N_eq; divmod_lia.
Qed.

(** The decoder at the padding that ends an encoded string. *)
Lemma decode_from_pad2 (d0 d1 : N) (dst : list byte) :
  decode_from (String padChar (String padChar EmptyString)) [d0; d1] dst
  = ok (dst ++ quantum_bytes (assemble [d0; d1]) 2).
Proof. reflexivity. Qed.

Lemma decode_from_pad1 (d0 d1 d2 : N) (dst : list byte) :
  decode_from (String padChar EmptyString) [d0; d1; d2] dst
  = ok (dst ++ quantum_bytes (assemble [d0; d1; d2]) 3).
Proof. reflexivity. Qed.

(** Induction on a byte sequence three bytes at a time. *)
Lemma list_ind_by_3 (A : Type) (P : list A -> Prop) :
  P [] -> (forall a, P [a]) -> (forall a b, P [a; b]) ->
  (forall a b c l, P l -> P (a :: b :: c :: l)) ->
  forall l, P l.
Proof.
  intros H0 H1 H2 H3 l.
  enough (P l /\ (forall a, P (a :: l)) /\ (forall a b, P (a :: b :: l))) by tauto.
  induction l as [|x l (IH0 & IH1 & IH2)]; auto.
Qed.

Lemma decode_encode_from (src dst : list byte) :
  decode_from (EncodeToString src) [] dst = ok (dst ++ src).
Proof.
  revert dst. induction src as [|s0|s0 s1|s0 s1 s2 rest IH] using list_ind_by_3;
    intros dst.
  - cbn. now rewrite app_nil_r.
  - cbn [EncodeToString].
    rewrite !decode_from_alphabet by apply sextet_lt. cbn [app List.length Nat.eqb].
    rewrite decode_from_pad2. now rewrite (quantum_bytes_2 s0).
  - cbn [EncodeToString].
    rewrite !decode_from_alphabet by apply sextet_lt. cbn [app List.length Nat.eqb].
    rewrite decode_from_pad1. now rewrite (quantum_bytes_3 s0 s1).
  - cbn [EncodeToString].
    rewrite !decode_from_alphabet by (apply sextet_lt || apply land_63_lt).
    cbn [app List.length Nat.eqb].
    rewrite quantum_bytes_4, IH, <- app_assoc. reflexivity.
Qed.

(** [DecodeString(EncodeToString(b))] is [b], with no error. *)
Lemma DecodeString_EncodeToString (b : list byte) :
  DecodeString (EncodeToString b) = ok b.
Proof. apply decode_encode_from. Qed.

End Base64Roundtrip.

(** ** The logging error monad *)

Section IOFacts.

Context {A B : Type}.

Lemma io_bind_ok (m : IO A) (k : A -> IO B) (a : A) :
  fst m = inr a -> io_bind m k = (fst (k a), snd m ++ snd (k a)).
Proof.
  destruct m as [[e|a'] t]; cbn; intros E; [discriminate|].
  injection E as ->. now destruct (k a).
Qed.

Lemma io_bind_fail (m : IO A) (k : A -> IO B) (e : GoError) :
  fst m = inl e -> io_bind m k = (inl e, snd m).
Proof.
  destruct m as [[e'|a] t]; cbn; intros E; [|discriminate].
  now injection E as ->.
Qed.

(** Whatever follows a step, the events of the step are logged first. *)
Lemma io_bind_events (m : IO A) (k : A -> IO B) (ev : Event) :
  In ev (snd (io_bind m k)) ->
  In ev (snd m) \/ exists a, fst m = inr a /\ In ev (snd (k a)).
Proof.
  destruct m as [[e|a] t]; cbn.
  - now left.
  - destruct (k a) as [r t'] eqn:E. cbn. intros H.
    apply in_app_or in H as [H|H]; [now left|right].
    exists a. rewrite E. now split.
Qed.

End IOFacts.

(** ** Get *)

Section GetFacts.

Variables (env : Env) (sunrise : SunriseDA).

(** An iteration is the fetch of the response followed by the decoding of
    its [blob] field. *)
Lemma Get_fetch_split (k : nat) (id : ID) :
  Get_fetch env sunrise k id
  = io_bind (Get_response env sunrise k id)
      (fun blob => io_bind (io_lift (Base64.DecodeString blob)) io_ret).
Proof.
  unfold Get_fetch, Get_response, io_lift, do_request, io_ret.
  destruct (http_NewRequest env _ _) as [e|req]; [reflexivity|]. cbn.
  destruct (client_Do env k req) as [e|response]; [reflexivity|]. cbn.
  destruct (Body response) as [e|responseData]; [reflexivity|]. cbn.
  destruct (json_Unmarshal_GetBlobResponse env responseData) as [e|blobResponse];
    [reflexivity|]. cbn.
  destruct (Base64.DecodeString (resp_Blob blobResponse)); reflexivity.
Qed.

(** A response whose [blob] field decodes makes the iteration succeed with
    the decoded bytes. *)
Lemma Get_fetch_decoded (k : nat) (id : ID) (str : string) (b : Blob) :
  fst (Get_response env sunrise k id) = inr str ->
  Base64.DecodeString str = inr b ->
  fst (Get_fetch env sunrise k id) = inr b.
Proof.
  intros Hr Hd. rewrite Get_fetch_split, (io_bind_ok _ _ _ Hr). cbn.
  unfold io_lift. now rewrite Hd.
Qed.

(** A failed iteration is a failed fetch or a failed decoding. *)
Lemma Get_fetch_failure (k : nat) (id : ID) (e : GoError) :
  fst (Get_fetch env sunrise k id) = inl e <->
  fst (Get_response env sunrise k id) = inl e
  \/ exists str, fst (Get_response env sunrise k id) = inr str
                 /\ Base64.DecodeString str = inl e.
Proof.
  rewrite Get_fetch_split.
  destruct (Get_response env sunrise k id) as [[e'|str] t] eqn:E; cbn.
  - split.
    + intros H. left. now injection H as ->.
    + intros [H|(str & H & _)]; [now injection H as ->|discriminate H].
  - unfold io_lift.
    destruct (Base64.DecodeString str) as [e'|b] eqn:D; cbn.
    + split.
      * intros H. injection H as ->. right. now exists str.
      * intros [H|(str' & H & H')]; [discriminate H|].
        injection H as <-. rewrite D in H'. now injection H' as ->.
    + split; [discriminate|].
      intros [H|(str' & H & H')]; [discriminate H|].
      injection H as <-. rewrite D in H'. discriminate H'.
Qed.

(** The only remote call of the [k]-th iteration is numbered [k]. *)
Lemma Get_fetch_events (k k' : nat) (id : ID) (req : Request) :
  In (EvDo k' req) (snd (Get_fetch env sunrise k id)) -> k' = k.
Proof.
  unfold Get_fetch, io_lift, do_request, io_ret.
  destruct (http_NewRequest env _ _) as [e|rq]; cbn; [tauto|].
  destruct (client_Do env k rq) as [e|response]; cbn.
  - intros [H|[]]. now injection H.
  - destruct (Body response) as [e|responseData]; cbn.
    { intros [H|[]]. now injection H. }
    destruct (json_Unmarshal_GetBlobResponse env responseData) as [e|blobResponse];
      cbn.
    { intros [H|[]]. now injection H. }
    destruct (Base64.DecodeString (resp_Blob blobResponse)); cbn;
      intros [H|[]]; now injection H.
Qed.

(** The calls of the loop started at [k0] are numbered from [k0], below
    [k0] plus the number of identifiers. *)
Lemma Get_loop_events (ids : list ID) :
  forall (k0 : nat) (blobs : slice Blob) (k : nat) (req : Request),
    In (EvDo k req) (snd (Get_loop env sunrise k0 ids blobs)) ->
    (k0 <= k < k0 + List.length ids)%nat.
Proof.
  induction ids as [|id ids IH]; intros k0 blobs k req; cbn [Get_loop].
  - intros [].
  - intros H. apply io_bind_events in H as [H|(b & _ & H)].
    + apply Get_fetch_events in H. cbn [List.length]. lia.
    + apply IH in H. cbn [List.length]. lia.
Qed.

(** When every iteration succeeds the loop appends the blobs in order. *)
Lemma Get_loop_success (ids : list ID) :
  forall (k0 : nat) (blobs : slice Blob),
    (forall j id, nth_error ids j = Some id ->
                  exists b, fst (Get_fetch env sunrise (k0 + j) id) = inr b) ->
    exists bs : list Blob,
      fst (Get_loop env sunrise k0 ids blobs)
      = inr (match ids with [] => blobs | _ :: _ => Some (elems blobs ++ bs) end)
      /\ List.length bs = List.length ids
      /\ (forall j id, nth_error ids j = Some id ->
            exists b, nth_error bs j = Some b
                      /\ fst (Get_fetch env sunrise (k0 + j) id) = inr b).
Proof.
  induction ids as [|id ids IH]; intros k0 blobs H.
  - exists []. repeat split. intros [|j] id'; discriminate.
  - destruct (H 0%nat id eq_refl) as (b & Hb). rewrite Nat.add_0_r in Hb.
    destruct (IH (S k0) (append blobs b)) as (bs & Hloop & Hlen & Hnth).
    { intros j id' Hj. rewrite Nat.add_succ_comm. now apply (H (S j)). }
    exists (b :: bs). cbn [Get_loop]. rewrite (io_bind_ok _ _ _ Hb). cbn [fst].
    rewrite Hloop. repeat split.
    + destruct ids; cbn [append elems].
      * destruct bs; [reflexivity|discriminate].
      * now rewrite <- app_assoc.
    + cbn. now rewrite Hlen.
    + intros [|j] id' Hj.
      * injection Hj as <-. exists b. rewrite Nat.add_0_r. now split.
      * rewrite <- Nat.add_succ_comm. now apply Hnth.
Qed.

(** After the first failing iteration nothing of the list matters. *)
Lemma Get_loop_failure (pre : list ID) (id : ID) (post : list ID) (e : GoError) :
  forall (k0 : nat) (blobs : slice Blob),
    (forall j idj, nth_error pre j = Some idj ->
                   exists b, fst (Get_fetch env sunrise (k0 + j) idj) = inr b) ->
    fst (Get_fetch env sunrise (k0 + List.length pre) id) = inl e ->
    fst (Get_loop env sunrise k0 (pre ++ id :: post) blobs) = inl e
    /\ Get_loop env sunrise k0 (pre ++ id :: post) blobs
       = Get_loop env sunrise k0 (pre ++ [id]) blobs.
Proof.
  induction pre as [|a pre IH]; intros k0 blobs Hpre Hid.
  - cbn [List.length] in Hid. rewrite Nat.add_0_r in Hid.
    cbn [app Get_loop]. rewrite !(io_bind_fail _ _ _ Hid). now split.
  - destruct (Hpre 0%nat a eq_refl) as (b & Hb). rewrite Nat.add_0_r in Hb.
    destruct (IH (S k0) (append blobs b)) as (Hfail & Heq).
    { intros j idj Hj. rewrite Nat.add_succ_comm. now apply (Hpre (S j)). }
    { rewrite Nat.add_succ_comm. exact Hid. }
    cbn [app Get_loop]. rewrite !(io_bind_ok _ _ _ Hb). cbn [fst].
    rewrite Heq. split; [|reflexivity]. now rewrite <- Heq.
Qed.

End GetFacts.

(** C10. On the empty identifier list [Get] returns a nil blob list and a
    nil error, and makes no remote call. *)
Theorem Get_empty (env : Env) (sunrise : SunriseDA) (ctx : Context)
    (namespace : Namespace) :
  Get env sunrise ctx [] namespace = ((None, None), []).
Proof.
  unfold Get. cbn [Get_loop]. unfold io_ret, nil_slice. reflexivity.
Qed.

(** C5. When the response for every identifier is well formed (the fetch
    yields a [blob] field and the field is valid base64), [Get] returns no
    error and one blob per identifier, in the order of the identifiers, each
    the base64 decoding of the [blob] field of the response for its
    identifier. *)
Theorem Get_returns_decoded_blobs_in_order (env : Env) (sunrise : SunriseDA)
    (ctx : Context) (ids : list ID) (namespace : Namespace) :
  (forall k id, nth_error ids k = Some id ->
     exists str b, fst (Get_response env sunrise k id) = inr str
                   /\ Base64.DecodeString str = inr b) ->
  exists blobs : slice Blob,
    fst (Get env sunrise ctx ids namespace) = (blobs, None)
    /\ len blobs = List.length ids
    /\ (forall k id, nth_error ids k = Some id ->
          exists str b, fst (Get_response env sunrise k id) = inr str
                        /\ Base64.DecodeString str = inr b
                        /\ nth_error (elems blobs) k = Some b).
Proof.
  intros H.
  destruct (Get_loop_success env sunrise ids 0 nil_slice) as (bs & Hloop & Hlen & Hnth).
  { intros j id Hj. destruct (H j id Hj) as (str & b & Hr & Hd).
    exists b. now apply Get_fetch_decoded with str. }
  exists (match ids with [] => nil_slice | _ :: _ => Some bs end).
  unfold Get.
  destruct (Get_loop env sunrise 0 ids nil_slice) as [r tr]. cbn [fst] in Hloop.
  subst r. cbn [fst]. split; [reflexivity|]. split.
  - destruct ids; [reflexivity|]. exact Hlen.
  - intros k id Hk.
    destruct (H k id Hk) as (str & b & Hr & Hd).
    destruct (Hnth k id Hk) as (b' & Hb' & Hf). cbn [Nat.add] in Hf.
    rewrite (Get_fetch_decoded env sunrise k id str b Hr Hd) in Hf.
    injection Hf as <-.
    exists str, b. repeat split; try assumption.
    destruct ids; [destruct k; discriminate|exact Hb'].
Qed.

(** Two identifiers fetched from the mock store. *)
Lemma Get_returns_decoded_blobs_in_order_witness :
  exists blobs : slice Blob,
    fst (Get Mock.up Mock.sunrise Mock.background
           [list_byte_of_string "loc2"; list_byte_of_string "loc1"] [])
    = (blobs, None)
    /\ len blobs = 2%nat
    /\ (forall k id,
          nth_error [list_byte_of_string "loc2"; list_byte_of_string "loc1"] k
          = Some id ->
          exists str b, fst (Get_response Mock.up Mock.sunrise k id) = inr str
                        /\ Base64.DecodeString str = inr b
                        /\ nth_error (elems blobs) k = Some b).
Proof.
  apply (Get_returns_decoded_blobs_in_order Mock.up Mock.sunrise Mock.background
           [list_byte_of_string "loc2"; list_byte_of_string "loc1"] []).
  intros [|[|k]] id Hk; simpl in Hk.
  - injection Hk as <-. do 2 eexists. split; reflexivity.
  - injection Hk as <-. do 2 eexists. split; reflexivity.
  - destruct k; discriminate.
Defined.

(** C6. When the fetch of some identifier fails (a transport failure, a
    malformed response or a base64 decoding failure) after the fetches of all
    earlier identifiers succeeded, [Get] returns that error and a nil blob
    list; the identifiers after the failing one play no part: the call
    behaves as if the list ended at the failing identifier, and no remote
    call is made for a later position. *)
Theorem Get_fails_on_first_failure (env : Env) (sunrise : SunriseDA)
    (ctx : Context) (pre : list ID) (id : ID) (post : list ID)
    (namespace : Namespace) (e : GoError) :
  (forall k idk, nth_error pre k = Some idk ->
     exists b, fst (Get_fetch env sunrise k idk) = inr b) ->
  fst (Get_fetch env sunrise (List.length pre) id) = inl e ->
  fst (Get env sunrise ctx (pre ++ id :: post) namespace) = (None, Some e)
  /\ Get env sunrise ctx (pre ++ id :: post) namespace
     = Get env sunrise ctx (pre ++ [id]) namespace
  /\ (forall k req,
        In (EvDo k req) (snd (Get env sunrise ctx (pre ++ id :: post) namespace)) ->
        (k <= List.length pre)%nat).
Proof.
  intros Hpre Hid.
  destruct (Get_loop_failure env sunrise pre id post e 0 nil_slice Hpre Hid)
    as (Hfail & Heq).
  assert (Hev : forall k req,
             In (EvDo k req) (snd (Get_loop env sunrise 0 (pre ++ [id]) nil_slice)) ->
             (k <= List.length pre)%nat).
  { intros k req H. apply Get_loop_events in H.
    rewrite length_app in H. cbn in H. lia. }
  unfold Get. rewrite Heq in *.
  destruct (Get_loop env sunrise 0 (pre ++ [id]) nil_slice) as [r tr].
  cbn [fst] in Hfail. subst r. cbn [fst snd] in *. repeat split. exact Hev.
Qed.

(** The second of three identifiers names a payload that is not base64. *)
Lemma Get_fails_on_first_failure_witness :
  fst (Get Mock.up Mock.sunrise Mock.background
         ([list_byte_of_string "loc1"] ++ list_byte_of_string "loc3"
            :: [list_byte_of_string "loc2"]) [])
  = (None, Some Base64.CorruptInputError)
  /\ Get Mock.up Mock.sunrise Mock.background
       ([list_byte_of_string "loc1"] ++ list_byte_of_string "loc3"
          :: [list_byte_of_string "loc2"]) []
     = Get Mock.up Mock.sunrise Mock.background
         ([list_byte_of_string "loc1"] ++ [list_byte_of_string "loc3"]) []
  /\ (forall k req,
        In (EvDo k req)
          (snd (Get Mock.up Mock.sunrise Mock.background
                  ([list_byte_of_string "loc1"] ++ list_byte_of_string "loc3"
                     :: [list_byte_of_string "loc2"]) [])) ->
        (k <= List.length [list_byte_of_string "loc1"])%nat).
Proof.
  apply (Get_fails_on_first_failure Mock.up Mock.sunrise Mock.background
           [list_byte_of_string "loc1"] (list_byte_of_string "loc3")
           [list_byte_of_string "loc2"] [] Base64.CorruptInputError).
  - intros [|k] idk Hk; simpl in Hk.
    + injection Hk as <-. eexists. reflexivity.
    + destruct k; discriminate.
  - reflexivity.
Defined.

(** ** Submit *)

Section SubmitFacts.

Variables (env : Env) (sunrise : SunriseDA) (daBlobs : list Blob).

(** The channels hold, in the order of the schedule, what each goroutine
    sent. *)
Lemma run_workers_from (sched : list nat) (ch : Chans) :
  fold_left
    (fun ch i =>
       match nth_error daBlobs i with
       | Some blob => Submit_worker env sunrise i blob ch
       | None => ch
       end) sched ch
  = {| resultChan := resultChan ch ++ flat_map (sent_results env sunrise daBlobs) sched;
       errorChan := errorChan ch ++ flat_map (sent_errors env sunrise daBlobs) sched |}.
Proof.
  revert ch. induction sched as [|i sched IH]; intros ch; cbn [fold_left flat_map].
  - rewrite !app_nil_r. now destruct ch.
  - rewrite IH. unfold sent_results, sent_errors, Submit_worker.
    destruct (nth_error daBlobs i) as [blob|]; [|reflexivity].
    destruct (publish env sunrise i blob); cbn; now rewrite <- ?app_assoc, ?app_nil_r.
Qed.

Lemma run_workers_channels (sched : list nat) :
  run_workers env sunrise daBlobs sched
  = {| resultChan := flat_map (sent_results env sunrise daBlobs) sched;
       errorChan := flat_map (sent_errors env sunrise daBlobs) sched |}.
Proof. unfold run_workers. now rewrite run_workers_from. Qed.

(** Every goroutine sends exactly once, so a channel of capacity
    [len(daBlobs)] never blocks a sender. *)
Lemma run_workers_one_send_each (sched : list nat) :
  schedule_of (List.length daBlobs) sched ->
  (List.length (resultChan (run_workers env sunrise daBlobs sched))
   + List.length (errorChan (run_workers env sunrise daBlobs sched))
   = List.length daBlobs)%nat.
Proof.
  intros Hs. rewrite run_workers_channels. cbn [resultChan errorChan].
  rewrite <- (length_seq (List.length daBlobs) 0).
  rewrite <- (Permutation_length Hs).
  assert (Hin : forall i, In i sched -> (i < List.length daBlobs)%nat).
  { intros i Hi. apply (Permutation_in _ Hs), in_seq in Hi. lia. }
  clear Hs. induction sched as [|i sched IH]; [reflexivity|].
  cbn [flat_map List.length]. rewrite !length_app.
  specialize (IH (fun j Hj => Hin j (or_intror Hj))).
  assert (Hi := Hin i (or_introl eq_refl)).
  apply nth_error_Some in Hi.
  set (a := List.length (flat_map (sent_results env sunrise daBlobs) sched)) in *.
  set (b := List.length (flat_map (sent_errors env sunrise daBlobs) sched)) in *.
  unfold sent_results, sent_errors.
  destruct (nth_error daBlobs i) as [blob|]; [|contradiction].
  destruct (publish env sunrise i blob); cbn [List.length]; lia.
Qed.

(** A value on [errorChan] is the non-nil error of a failed publish. *)
Lemma errorChan_elements (sched : list nat) (x : error) :
  In x (errorChan (run_workers env sunrise daBlobs sched)) ->
  exists i blob err,
    x = Some err /\ In i sched /\ nth_error daBlobs i = Some blob
    /\ publish env sunrise i blob = inl err.
Proof.
  rewrite run_workers_channels. cbn [errorChan]. intros H.
  apply in_flat_map in H as (i & Hi & H). unfold sent_errors in H.
  destruct (nth_error daBlobs i) as [blob|] eqn:E; [|contradiction].
  destruct (publish env sunrise i blob) as [err|r] eqn:P; [|contradiction].
  destruct H as [<-|[]]. now exists i, blob, err.
Qed.

(** A response on [resultChan] is the response of a successful publish,
    and every successful publish of a scheduled goroutine is there. *)
Lemma resultChan_elements (sched : list nat) (r : PublishResponse) :
  In r (resultChan (run_workers env sunrise daBlobs sched)) <->
  exists i blob,
    In i sched /\ nth_error daBlobs i = Some blob
    /\ publish env sunrise i blob = inr r.
Proof.
  rewrite run_workers_channels. cbn [resultChan]. rewrite in_flat_map. split.
  - intros (i & Hi & H). unfold sent_results in H.
    destruct (nth_error daBlobs i) as [blob|] eqn:E; [|contradiction].
    destruct (publish env sunrise i blob) as [err|r'] eqn:P; [contradiction|].
    destruct H as [<-|[]]. now exists i, blob.
  - intros (i & blob & Hi & E & P). exists i. split; [exact Hi|].
    unfold sent_results. rewrite E, P. now left.
Qed.

(** A blob of the batch has its goroutine in every schedule. *)
Lemma scheduled (sched : list nat) (i : nat) (blob : Blob) :
  schedule_of (List.length daBlobs) sched ->
  nth_error daBlobs i = Some blob -> In i sched.
Proof.
  intros Hs E. apply (Permutation_in _ (Permutation_sym Hs)), in_seq.
  assert (nth_error daBlobs i <> None) by congruence.
  apply nth_error_Some in H. lia.
Qed.

End SubmitFacts.

(** The loop over [resultChan] turns each response into the bytes of its
    locator, in the order received. *)
Lemma Submit_collect_from (results : list PublishResponse) (ids : slice ID) :
  fold_left
    (fun ids result => append ids (list_byte_of_string (MetadataUri result)))
    results ids
  = match results with
    | [] => ids
    | _ :: _ =>
        Some (elems ids
              ++ map (fun r => list_byte_of_string (MetadataUri r)) results)
    end.
Proof.
  revert ids. induction results as [|r results IH]; intros ids; [reflexivity|].
  cbn [fold_left map]. rewrite IH. destruct results as [|r' results].
  - reflexivity.
  - cbn [append elems]. now rewrite <- app_assoc.
Qed.

Lemma Submit_collect_elems (results : list PublishResponse) :
  elems (Submit_collect results)
  = map (fun r => list_byte_of_string (MetadataUri r)) results.
Proof.
  unfold Submit_collect. rewrite Submit_collect_from. now destruct results.
Qed.

(** When every publish succeeds nothing is sent on [errorChan]. *)
Lemma errorChan_empty (env : Env) (sunrise : SunriseDA) (daBlobs : list Blob)
    (sched : list nat) :
  (forall i blob, nth_error daBlobs i = Some blob ->
     exists r, publish env sunrise i blob = inr r) ->
  errorChan (run_workers env sunrise daBlobs sched) = [].
Proof.
  intros Hok.
  destruct (errorChan (run_workers env sunrise daBlobs sched)) as [|x l] eqn:E;
    [reflexivity|exfalso].
  destruct (errorChan_elements env sunrise daBlobs sched x)
    as (i & blob & err & _ & _ & Hb & Hp).
  { rewrite E. now left. }
  destruct (Hok i blob Hb) as (r & Hr). rewrite Hr in Hp. discriminate.
Qed.

(** [Submit] has a single return statement, the one of the error check:
    it never returns a nil error. *)
Lemma Submit_returns_only_errors (env : Env) (sunrise : SunriseDA)
    (ctx : Context) (daBlobs : list Blob) (gasPrice : float64)
    (namespace : Namespace) (sched : list nat) (ids : slice ID) :
  Submit env sunrise ctx daBlobs gasPrice namespace sched <> Returned (ids, None).
Proof.
  unfold Submit.
  destruct (recv_closed (errorChan (run_workers env sunrise daBlobs sched)));
    discriminate.
Qed.

(** C1. For a batch whose publish calls all succeed, the loop over
    [resultChan] does collect one identifier per blob, each the bytes of the
    locator returned for a blob of the batch; but the value received from
    [errorChan] is nil and the body of [Submit] ends there without a return
    statement: the identifiers are never handed to the caller. *)
Theorem Submit_all_published_missing_return (env : Env) (sunrise : SunriseDA)
    (ctx : Context) (daBlobs : list Blob) (gasPrice : float64)
    (namespace : Namespace) (sched : list nat) :
  schedule_of (List.length daBlobs) sched ->
  (forall i blob, nth_error daBlobs i = Some blob ->
     exists r, publish env sunrise i blob = inr r) ->
  Submit env sunrise ctx daBlobs gasPrice namespace sched = MissingReturn
  /\ len (Submit_collect (resultChan (run_workers env sunrise daBlobs sched)))
     = List.length daBlobs
  /\ (forall id,
        In id (elems (Submit_collect
                        (resultChan (run_workers env sunrise daBlobs sched)))) <->
        exists i blob r,
          nth_error daBlobs i = Some blob
          /\ publish env sunrise i blob = inr r
          /\ id = list_byte_of_string (MetadataUri r)).
Proof.
  intros Hs Hok.
  pose proof (errorChan_empty env sunrise daBlobs sched Hok) as He.
  split; [|split].
  - unfold Submit. now rewrite He.
  - pose proof (run_workers_one_send_each env sunrise daBlobs sched Hs) as Hn.
    rewrite He in Hn. cbn [List.length] in Hn.
    unfold len. rewrite Submit_collect_elems, length_map. lia.
  - intros id. rewrite Submit_collect_elems, in_map_iff. split.
    + intros (r & <- & Hr).
      apply resultChan_elements in Hr as (i & blob & _ & Hb & Hp).
      now exists i, blob, r.
    + intros (i & blob & r & Hb & Hp & ->). exists r. split; [reflexivity|].
      apply resultChan_elements. exists i, blob.
      repeat split; try assumption. now apply (scheduled daBlobs sched i blob).
Qed.

(** The batch ["A"; "BB"], the second goroutine sending first. *)
Lemma Submit_all_published_missing_return_witness :
  Submit Mock.up Mock.sunrise Mock.background [Mock.blobA; Mock.blobBB]
         PrimFloat.zero [] [1; 0]%nat
  = MissingReturn
  /\ len (Submit_collect
            (resultChan (run_workers Mock.up Mock.sunrise
                           [Mock.blobA; Mock.blobBB] [1; 0]%nat)))
     = List.length [Mock.blobA; Mock.blobBB]
  /\ (forall id,
        In id (elems (Submit_collect
                        (resultChan (run_workers Mock.up Mock.sunrise
                                       [Mock.blobA; Mock.blobBB] [1; 0]%nat)))) <->
        exists i blob r,
          nth_error [Mock.blobA; Mock.blobBB] i = Some blob
          /\ publish Mock.up Mock.sunrise i blob = inr r
          /\ id = list_byte_of_string (MetadataUri r)).
Proof.
  apply (Submit_all_published_missing_return Mock.up Mock.sunrise
           Mock.background [Mock.blobA; Mock.blobBB] PrimFloat.zero []
           [1; 0]%nat).
  - apply perm_swap.
  - intros i blob _. eexists. reflexivity.
Defined.

(** C2. For a batch in which at least one publish fails, [Submit] returns
    a nil identifier list together with a non-nil error, under every
    schedule; the error is that of a failed publish of the batch. No locator
    of a published blob is returned. *)
Theorem Submit_fails_when_a_publish_fails (env : Env) (sunrise : SunriseDA)
    (ctx : Context) (daBlobs : list Blob) (gasPrice : float64)
    (namespace : Namespace) (sched : list nat) :
  schedule_of (List.length daBlobs) sched ->
  (exists i blob e, nth_error daBlobs i = Some blob
                    /\ publish env sunrise i blob = inl e) ->
  exists err : GoError,
    Submit env sunrise ctx daBlobs gasPrice namespace sched
    = Returned (None, Some err)
    /\ exists i blob, nth_error daBlobs i = Some blob
                      /\ publish env sunrise i blob = inl err.
Proof.
  intros Hs (i & blob & e & Hb & Hp).
  assert (Hin : In (Some e) (errorChan (run_workers env sunrise daBlobs sched))).
  { rewrite run_workers_channels. cbn [errorChan]. apply in_flat_map.
    exists i. split; [now apply (scheduled daBlobs sched i blob)|].
    unfold sent_errors. rewrite Hb, Hp. now left. }
  destruct (errorChan (run_workers env sunrise daBlobs sched)) as [|x l] eqn:E;
    [contradiction|].
  destruct (errorChan_elements env sunrise daBlobs sched x)
    as (i' & blob' & err & -> & _ & Hb' & Hp').
  { rewrite E. now left. }
  exists err. split.
  - unfold Submit. now rewrite E.
  - now exists i', blob'.
Qed.

(** The batch ["A"; "BB"] when the publish of "BB" is refused. *)
Lemma Submit_fails_when_a_publish_fails_witness :
  exists err : GoError,
    Submit Mock.second_down Mock.sunrise Mock.background
           [Mock.blobA; Mock.blobBB] PrimFloat.zero [] [1; 0]%nat
    = Returned (None, Some err)
    /\ exists i blob, nth_error [Mock.blobA; Mock.blobBB] i = Some blob
                      /\ publish Mock.second_down Mock.sunrise i blob = inl err.
Proof.
  apply (Submit_fails_when_a_publish_fails Mock.second_down Mock.sunrise
           Mock.background [Mock.blobA; Mock.blobBB] PrimFloat.zero []
           [1; 0]%nat).
  - apply perm_swap.
  - exists 1%nat, Mock.blobBB, Mock.refused. split; reflexivity.
Defined.

(** ** Publishing, then fetching *)



(** * Further properties of the adapter *)

(** ** Submit: what is returned, and when *)

Section SubmitMore.

Variables (env : Env) (sunrise : SunriseDA) (daBlobs : list Blob).

(** Goroutines whose publish succeeds send nothing on [errorChan]. *)
Lemma sent_errors_none (js : list nat) :
  (forall j blob, In j js -> nth_error daBlobs j = Some blob ->
     exists r, publish env sunrise j blob = inr r) ->
  flat_map (sent_errors env sunrise daBlobs) js = [].
Proof.
  induction js as [|j js IH]; intros H; [reflexivity|].
  cbn [flat_map]. rewrite IH by (intros j' b Hj; apply H; now right).
  rewrite app_nil_r. unfold sent_errors.
  destruct (nth_error daBlobs j) as [blob|] eqn:E; [|reflexivity].
  destruct (H j blob (or_introl eq_refl) E) as (r & Hr). now rewrite Hr.
Qed.

(** Every goroutine sends at most once. *)
Lemma sends_at_most_one_each (js : list nat) :
  (List.length (flat_map (sent_results env sunrise daBlobs) js)
   + List.length (flat_map (sent_errors env sunrise daBlobs) js)
   <= List.length js)%nat.
Proof.
  induction js as [|j js IH]; [reflexivity|].
  cbn [flat_map List.length]. rewrite !length_app.
  set (a := List.length (flat_map (sent_results env sunrise daBlobs) js)) in *.
  set (b := List.length (flat_map (sent_errors env sunrise daBlobs) js)) in *.
  unfold sent_results, sent_errors.
  destruct (nth_error daBlobs j) as [blob|]; cbn [List.length]; [|lia].
  destruct (publish env sunrise j blob); cbn [List.length]; lia.
Qed.

(** With every publish successful, the responses on [resultChan] are those
    of the goroutines in the order of their sends. *)
Lemma results_in_send_order (js : list nat) :
  (forall j, In j js ->
     exists blob r, nth_error daBlobs j = Some blob
                    /\ publish env sunrise j blob = inr r) ->
  Forall2
    (fun j r => exists blob, nth_error daBlobs j = Some blob
                             /\ publish env sunrise j blob = inr r)
    js (flat_map (sent_results env sunrise daBlobs) js).
Proof.
  induction js as [|j js IH]; intros H; cbn [flat_map]; [constructor|].
  destruct (H j (or_introl eq_refl)) as (blob & r & Hb & Hp).
  unfold sent_results at 1. rewrite Hb, Hp. cbn [app]. constructor.
  - now exists blob.
  - apply IH. intros j' Hj. apply H. now right.
Qed.

End SubmitMore.

(** Positions of two lists related by [Forall2] are related. *)
Lemma Forall2_nth_error_l (A B : Type) (R : A -> B -> Prop) (l : list A)
    (l' : list B) :
  Forall2 R l l' ->
  forall k a, nth_error l k = Some a ->
    exists b, nth_error l' k = Some b /\ R a b.
Proof.
  induction 1 as [|x y l l' Hxy _ IH]; intros [|k] a Hk; try discriminate.
  - injection Hk as <-. now exists y.
  - now apply IH.
Qed.

(** X1. Whatever the send order, a value [Submit] returns is a nil
    identifier list with a non-nil error, and the error is the one a publish
    of some blob of the batch produced: [Submit] invents no error and never
    returns a nil error. *)
Theorem Submit_return_is_publish_error (env : Env) (sunrise : SunriseDA)
    (ctx : Context) (daBlobs : list Blob) (gasPrice : float64)
    (namespace : Namespace) (sched : list nat) (x : slice ID * error) :
  Submit env sunrise ctx daBlobs gasPrice namespace sched = Returned x ->
  exists err i blob,
    x = (None, Some err) /\ In i sched /\ nth_error daBlobs i = Some blob
    /\ publish env sunrise i blob = inl err.
Proof.
  unfold Submit. intros H.
  destruct (errorChan (run_workers env sunrise daBlobs sched)) as [|e l] eqn:E;
    cbn [recv_closed] in H; [discriminate|].
  destruct (errorChan_elements env sunrise daBlobs sched e)
    as (i & blob & err & -> & Hi & Hb & Hp).
  { rewrite E. now left. }
  injection H as <-. now exists err, i, blob.
Qed.

(** The publish of "BB" is refused. *)
Lemma Submit_return_is_publish_error_witness :
  exists err i blob,
    (@None (list ID), Some Mock.refused) = (None, Some err)
    /\ In i [0; 1]%nat
    /\ nth_error [Mock.blobA; Mock.blobBB] i = Some blob
    /\ publish Mock.second_down Mock.sunrise i blob = inl err.
Proof.
  apply (Submit_return_is_publish_error Mock.second_down Mock.sunrise
           Mock.background [Mock.blobA; Mock.blobBB] PrimFloat.zero []
           [0; 1]%nat (None, Some Mock.refused)).
  reflexivity.
Defined.

(** X2. The error [Submit] returns is the one sent first: when the
    goroutines that send before goroutine [i] all published with success and
    the publish of blob [i] fails with [e], [Submit] returns [(nil, e)],
    whatever the goroutines after [i] did. *)
Theorem Submit_surfaces_first_sent_error (env : Env) (sunrise : SunriseDA)
    (ctx : Context) (daBlobs : list Blob) (gasPrice : float64)
    (namespace : Namespace) (pre post : list nat) (i : nat) (blob : Blob)
    (e : GoError) :
  (forall j b, In j pre -> nth_error daBlobs j = Some b ->
     exists r, publish env sunrise j b = inr r) ->
  nth_error daBlobs i = Some blob ->
  publish env sunrise i blob = inl e ->
  Submit env sunrise ctx daBlobs gasPrice namespace (pre ++ i :: post)
  = Returned (None, Some e).
Proof.
  intros Hpre Hb Hp. unfold Submit. rewrite run_workers_channels.
  cbn [errorChan]. rewrite flat_map_app, (sent_errors_none _ _ _ _ Hpre).
  cbn [app flat_map]. unfold sent_errors at 1. rewrite Hb, Hp. reflexivity.
Qed.

(** Both publishes fail, with different errors; the second blob's goroutine
    sends first. *)
Lemma Submit_surfaces_first_sent_error_witness :
  Submit Mock.both_down Mock.sunrise Mock.background [Mock.blobA; Mock.blobBB]
         PrimFloat.zero [] ([] ++ 1%nat :: [0%nat])
  = Returned (None, Some Mock.timed_out).
Proof.
  apply (Submit_surfaces_first_sent_error Mock.both_down Mock.sunrise
           Mock.background [Mock.blobA; Mock.blobBB] PrimFloat.zero []
           [] [0%nat] 1%nat Mock.blobBB Mock.timed_out).
  - intros j b [].
  - reflexivity.
  - reflexivity.
Defined.

(** X3. No send of [Submit] blocks: after any initial part [done] of a
    schedule, the number of values on the two channels together is the
    number of goroutines that have sent, so neither channel holds more than
    its capacity [len(daBlobs)]. *)
Theorem Submit_channels_within_capacity (env : Env) (sunrise : SunriseDA)
    (daBlobs : list Blob) (done rest : list nat) :
  schedule_of (List.length daBlobs) (done ++ rest) ->
  (List.length (resultChan (run_workers env sunrise daBlobs done))
   + List.length (errorChan (run_workers env sunrise daBlobs done))
   = List.length done)%nat
  /\ (List.length (resultChan (run_workers env sunrise daBlobs done))
      <= List.length daBlobs)%nat
  /\ (List.length (errorChan (run_workers env sunrise daBlobs done))
      <= List.length daBlobs)%nat.
Proof.
  intros Hs.
  assert (Hlen : (List.length done <= List.length daBlobs)%nat).
  { apply Permutation_length in Hs. rewrite length_app, length_seq in Hs. lia. }
  assert (Hin : forall i, In i done -> (i < List.length daBlobs)%nat).
  { intros i Hi.
    assert (H : In i (seq 0 (List.length daBlobs))).
    { apply (Permutation_in _ Hs), in_or_app. now left. }
    apply in_seq in H. lia. }
  rewrite run_workers_channels. cbn [resultChan errorChan].
  assert (Hsum : (List.length (flat_map (sent_results env sunrise daBlobs) done)
                  + List.length (flat_map (sent_errors env sunrise daBlobs) done)
                  = List.length done)%nat).
  { clear Hs Hlen. induction done as [|i done' IH]; [reflexivity|].
    cbn [flat_map List.length]. rewrite !length_app.
    specialize (IH (fun j Hj => Hin j (or_intror Hj))).
    assert (Hi := Hin i (or_introl eq_refl)). apply nth_error_Some in Hi.
    set (a := List.length (flat_map (sent_results env sunrise daBlobs) done')) in *.
    set (b := List.length (flat_map (sent_errors env sunrise daBlobs) done')) in *.
    unfold sent_results, sent_errors.
    destruct (nth_error daBlobs i) as [blob|]; [|contradiction].
    destruct (publish env sunrise i blob); cbn [List.length]; lia. }
  lia.
Qed.

(** Of the two goroutines of ["A"; "BB"], the second has sent. *)
Lemma Submit_channels_within_capacity_witness :
  (List.length (resultChan (run_workers Mock.second_down Mock.sunrise
                              [Mock.blobA; Mock.blobBB] [1%nat]))
   + List.length (errorChan (run_workers Mock.second_down Mock.sunrise
                               [Mock.blobA; Mock.blobBB] [1%nat]))
   = List.length [1%nat])%nat
  /\ (List.length (resultChan (run_workers Mock.second_down Mock.sunrise
                                 [Mock.blobA; Mock.blobBB] [1%nat]))
      <= List.length [Mock.blobA; Mock.blobBB])%nat
  /\ (List.length (errorChan (run_workers Mock.second_down Mock.sunrise
                                [Mock.blobA; Mock.blobBB] [1%nat]))
      <= List.length [Mock.blobA; Mock.blobBB])%nat.
Proof.
  apply (Submit_channels_within_capacity Mock.second_down Mock.sunrise
           [Mock.blobA; Mock.blobBB] [1%nat] [0%nat]).
  apply perm_swap.
Defined.

(** X4. The interleaving of the goroutines decides neither whether
    [Submit] fails nor which identifiers it collects, only their order (and
    which error is returned): for two schedules of one batch the collected
    identifier lists are permutations of each other, and [Submit] ends
    without a return under one exactly when it does under the other. *)
Theorem Submit_schedule_independence (env : Env) (sunrise : SunriseDA)
    (ctx : Context) (daBlobs : list Blob) (gasPrice : float64)
    (namespace : Namespace) (sched1 sched2 : list nat) :
  schedule_of (List.length daBlobs) sched1 ->
  schedule_of (List.length daBlobs) sched2 ->
  Permutation
    (elems (Submit_collect (resultChan (run_workers env sunrise daBlobs sched1))))
    (elems (Submit_collect (resultChan (run_workers env sunrise daBlobs sched2))))
  /\ (Submit env sunrise ctx daBlobs gasPrice namespace sched1 = MissingReturn
      <-> Submit env sunrise ctx daBlobs gasPrice namespace sched2 = MissingReturn).
Proof.
  intros H1 H2.
  assert (P : Permutation sched1 sched2)
    by (eapply Permutation_trans; [exact H1|now apply Permutation_sym]).
  split.
  - rewrite !Submit_collect_elems, !run_workers_channels. cbn [resultChan].
    apply Permutation_map. now apply Permutation_flat_map.
  - assert (Q : Permutation (flat_map (sent_errors env sunrise daBlobs) sched1)
                            (flat_map (sent_errors env sunrise daBlobs) sched2))
      by now apply Permutation_flat_map.
    assert (M : forall sched,
               Submit env sunrise ctx daBlobs gasPrice namespace sched
               = MissingReturn
               <-> flat_map (sent_errors env sunrise daBlobs) sched = []).
    { intros sched. unfold Submit.
      pose proof (errorChan_elements env sunrise daBlobs sched) as He.
      rewrite run_workers_channels in *. cbn [errorChan] in *.
      destruct (flat_map (sent_errors env sunrise daBlobs) sched) as [|e l].
      - now split.
      - destruct (He e (or_introl eq_refl)) as (_ & _ & err & -> & _).
        cbn [recv_closed]. split; discriminate. }
    rewrite !M. split; intros E; rewrite E in Q.
    + now apply Permutation_nil.
    + apply Permutation_sym in Q. now apply Permutation_nil.
Qed.

(** The two send orders of the batch ["A"; "BB"]. *)
Lemma Submit_schedule_independence_witness :
  Permutation
    (elems (Submit_collect (resultChan (run_workers Mock.up Mock.sunrise
                                          [Mock.blobA; Mock.blobBB] [0; 1]%nat))))
    (elems (Submit_collect (resultChan (run_workers Mock.up Mock.sunrise
                                          [Mock.blobA; Mock.blobBB] [1; 0]%nat))))
  /\ (Submit Mock.up Mock.sunrise Mock.background [Mock.blobA; Mock.blobBB]
             PrimFloat.zero [] [0; 1]%nat = MissingReturn
      <-> Submit Mock.up Mock.sunrise Mock.background [Mock.blobA; Mock.blobBB]
                 PrimFloat.zero [] [1; 0]%nat = MissingReturn).
Proof.
  apply (Submit_schedule_independence Mock.up Mock.sunrise Mock.background
           [Mock.blobA; Mock.blobBB] PrimFloat.zero [] [0; 1]%nat [1; 0]%nat).
  - apply Permutation_refl.
  - apply perm_swap.
Defined.

(** With every publish successful, the collected identifiers follow the
    send order. *)
Lemma collected_in_send_order (env : Env) (sunrise : SunriseDA)
    (daBlobs : list Blob) (sched : list nat) :
  schedule_of (List.length daBlobs) sched ->
  (forall i blob, nth_error daBlobs i = Some blob ->
     exists r, publish env sunrise i blob = inr r) ->
  Forall2
    (fun j id => exists blob r,
       nth_error daBlobs j = Some blob
       /\ publish env sunrise j blob = inr r
       /\ id = list_byte_of_string (MetadataUri r))
    sched
    (elems (Submit_collect (resultChan (run_workers env sunrise daBlobs sched)))).
Proof.
  intros Hs Hok.
  rewrite Submit_collect_elems, run_workers_channels. cbn [resultChan].
  assert (F := results_in_send_order env sunrise daBlobs sched).
  assert (Hall : forall j, In j sched ->
            exists blob r, nth_error daBlobs j = Some blob
                           /\ publish env sunrise j blob = inr r).
  { intros j Hj. apply (Permutation_in _ Hs), in_seq in Hj.
    destruct (nth_error daBlobs j) as [blob|] eqn:E.
    - destruct (Hok j blob E) as (r & Hr). now exists blob, r.
    - apply nth_error_None in E. lia. }
  specialize (F Hall). clear Hall Hs.
  induction F as [|j r js rs (blob & Hb & Hp) _ IH]; cbn [map]; constructor.
  - now exists blob, r.
  - exact IH.
Qed.

(** X5. The identifiers [Submit] collects are in the order in which the
    goroutines sent, not in the order of the blobs: with every publish
    successful, the identifier at position [k] is the locator returned for
    the blob whose goroutine was the [k]-th to send. *)
Theorem Submit_collects_in_send_order (env : Env) (sunrise : SunriseDA)
    (daBlobs : list Blob) (sched : list nat) (k i : nat) :
  schedule_of (List.length daBlobs) sched ->
  (forall j blob, nth_error daBlobs j = Some blob ->
     exists r, publish env sunrise j blob = inr r) ->
  nth_error sched k = Some i ->
  exists blob r,
    nth_error daBlobs i = Some blob
    /\ publish env sunrise i blob = inr r
    /\ nth_error
         (elems (Submit_collect (resultChan (run_workers env sunrise daBlobs sched))))
         k
       = Some (list_byte_of_string (MetadataUri r)).
Proof.
  intros Hs Hok Hk.
  destruct (Forall2_nth_error_l _ _ _ _ _
              (collected_in_send_order env sunrise daBlobs sched Hs Hok) k i Hk)
    as (id & Hid & blob & r & Hb & Hp & ->).
  now exists blob, r.
Qed.

(** "BB" is sent first: its locator comes first. *)
Lemma Submit_collects_in_send_order_witness :
  exists blob r,
    nth_error [Mock.blobA; Mock.blobBB] 1 = Some blob
    /\ publish Mock.up Mock.sunrise 1 blob = inr r
    /\ nth_error
         (elems (Submit_collect (resultChan (run_workers Mock.up Mock.sunrise
                                               [Mock.blobA; Mock.blobBB]
                                               [1; 0]%nat))))
         0
       = Some (list_byte_of_string (MetadataUri r)).
Proof.
  apply (Submit_collects_in_send_order Mock.up Mock.sunrise
           [Mock.blobA; Mock.blobBB] [1; 0]%nat 0%nat 1%nat).
  - apply perm_swap.
  - intros j blob _. eexists. reflexivity.
  - reflexivity.
Defined.

(** ** Get: the calls it makes and what its result tells *)

Section GetMore.

Variables (env : Env) (sunrise : SunriseDA).

(** Either every iteration succeeds, or there is a first one that fails. *)
Lemma fetch_cases (ids : list ID) :
  forall k0 : nat,
    (forall j id, nth_error ids j = Some id ->
       exists b, fst (Get_fetch env sunrise (k0 + j) id) = inr b)
    \/ (exists pre id post e,
          ids = pre ++ id :: post
          /\ (forall j idj, nth_error pre j = Some idj ->
                exists b, fst (Get_fetch env sunrise (k0 + j) idj) = inr b)
          /\ fst (Get_fetch env sunrise (k0 + List.length pre) id) = inl e).
Proof.
  induction ids as [|id ids IH]; intros k0.
  - left. intros [|j] id; discriminate.
  - destruct (fst (Get_fetch env sunrise k0 id)) as [e|b] eqn:E.
    + right. exists [], id, ids, e. cbn [List.length app].
      rewrite Nat.add_0_r. repeat split; [|exact E].
      intros [|j] idj; discriminate.
    + destruct (IH (S k0)) as [Hall|(pre & id' & post & e & -> & Hpre & Hid)].
      * left. intros [|j] idj Hj.
        -- injection Hj as <-. rewrite Nat.add_0_r. now exists b.
        -- rewrite <- Nat.add_succ_comm. now apply Hall.
      * right. exists (id :: pre), id', post, e. repeat split.
        -- intros [|j] idj Hj.
           ++ injection Hj as <-. rewrite Nat.add_0_r. now exists b.
           ++ rewrite <- Nat.add_succ_comm. now apply Hpre.
        -- cbn [List.length]. now rewrite <- Nat.add_succ_comm.
Qed.

(** An iteration logs nothing when the request cannot be built, and
    otherwise exactly the call for that request. *)
Lemma Get_fetch_trace (k : nat) (id : ID) :
  (exists e,
     http_NewRequest env "GET" (get_blob_url sunrise (string_of_list_byte id))
     = inl e
     /\ Get_fetch env sunrise k id = (inl e, []))
  \/ (exists req,
        http_NewRequest env "GET" (get_blob_url sunrise (string_of_list_byte id))
        = inr req
        /\ snd (Get_fetch env sunrise k id) = [EvDo k req]).
Proof.
  unfold Get_fetch, io_lift, do_request, io_ret.
  destruct (http_NewRequest env _ _) as [e|req]; cbn [io_bind].
  - left. now exists e.
  - right. exists req. split; [reflexivity|].
    destruct (client_Do env k req) as [e|response]; cbn [io_bind]; [reflexivity|].
    destruct (Body response) as [e|responseData]; cbn; [reflexivity|].
    destruct (json_Unmarshal_GetBlobResponse env responseData) as [e|blobResponse];
      cbn; [reflexivity|].
    destruct (Base64.DecodeString (resp_Blob blobResponse)); reflexivity.
Qed.

(** The [j]-th call of the loop is the call for the [j]-th identifier. *)
Lemma Get_loop_trace (ids : list ID) :
  forall (k0 : nat) (acc : slice Blob) (j : nat) (ev : Event),
    nth_error (snd (Get_loop env sunrise k0 ids acc)) j = Some ev ->
    exists id req,
      ev = EvDo (k0 + j) req
      /\ nth_error ids j = Some id
      /\ http_NewRequest env "GET" (get_blob_url sunrise (string_of_list_byte id))
         = inr req.
Proof.
  induction ids as [|id ids IH]; intros k0 acc j ev; cbn [Get_loop].
  - destruct j; discriminate.
  - destruct (Get_fetch_trace k0 id) as [(e & Hreq & Hf)|(req & Hreq & Ht)].
    + rewrite Hf. cbn. destruct j; discriminate.
    + destruct (fst (Get_fetch env sunrise k0 id)) as [e|b] eqn:E.
      * rewrite (io_bind_fail _ _ _ E), Ht. cbn [snd].
        destruct j as [|[|j]]; try discriminate.
        intros H. injection H as <-. exists id, req.
        rewrite Nat.add_0_r. now repeat split.
      * rewrite (io_bind_ok _ _ _ E), Ht. cbn [snd app].
        destruct j as [|j]; cbn [nth_error].
        -- intros H. injection H as <-. exists id, req.
           rewrite Nat.add_0_r. now repeat split.
        -- intros H. apply IH in H as (id' & req' & -> & Hid & Hr).
           exists id', req'. rewrite <- Nat.add_succ_comm. now repeat split.
Qed.

(** When every iteration succeeds there is one call for each identifier. *)
Lemma Get_loop_trace_length (ids : list ID) :
  forall (k0 : nat) (acc : slice Blob),
    (forall j id, nth_error ids j = Some id ->
       exists b, fst (Get_fetch env sunrise (k0 + j) id) = inr b) ->
    List.length (snd (Get_loop env sunrise k0 ids acc)) = List.length ids.
Proof.
  induction ids as [|id ids IH]; intros k0 acc H; [reflexivity|].
  destruct (H 0%nat id eq_refl) as (b & Hb). rewrite Nat.add_0_r in Hb.
  cbn [Get_loop]. rewrite (io_bind_ok _ _ _ Hb). cbn [snd].
  rewrite length_app, IH.
  - destruct (Get_fetch_trace k0 id) as [(e & _ & Hf)|(req & _ & Ht)].
    + rewrite Hf in Hb. discriminate.
    + now rewrite Ht.
  - intros j id' Hj. rewrite Nat.add_succ_comm. now apply (H (S j)).
Qed.

(** What a loop that ends without error has appended. *)
Lemma Get_loop_ok_inv (ids : list ID) (k0 : nat) (acc out : slice Blob) :
  fst (Get_loop env sunrise k0 ids acc) = inr out ->
  (forall j id, nth_error ids j = Some id ->
     exists b, fst (Get_fetch env sunrise (k0 + j) id) = inr b)
  /\ exists bs,
       out = match ids with [] => acc | _ :: _ => Some (elems acc ++ bs) end
       /\ List.length bs = List.length ids
       /\ (forall j id, nth_error ids j = Some id ->
             exists b, nth_error bs j = Some b
                       /\ fst (Get_fetch env sunrise (k0 + j) id) = inr b).
Proof.
  intros Hout.
  destruct (fetch_cases ids k0) as [Hall|(pre & id & post & e & -> & Hpre & Hid)].
  - split; [exact Hall|].
    destruct (Get_loop_success env sunrise ids k0 acc Hall) as (bs & Hl & Hlen & Hn).
    exists bs. rewrite Hl in Hout. injection Hout as <-. now repeat split.
  - destruct (Get_loop_failure env sunrise pre id post e k0 acc Hpre Hid)
      as (Hfail & _).
    rewrite Hfail in Hout. discriminate.
Qed.

End GetMore.

(** X6. [Get] calls the remote service at most once per identifier, in the
    order of the list: in every run, failed or not, the [j]-th call logged
    is the call for the request built from the [j]-th identifier (method
    GET, the locator appended to the fetch URL), and there are no more calls
    than identifiers. *)
Theorem Get_calls_follow_ids (env : Env) (sunrise : SunriseDA) (ctx : Context)
    (ids : list ID) (namespace : Namespace) :
  (List.length (snd (Get env sunrise ctx ids namespace)) <= List.length ids)%nat
  /\ forall j ev,
       nth_error (snd (Get env sunrise ctx ids namespace)) j = Some ev ->
       exists id req,
         ev = EvDo j req
         /\ nth_error ids j = Some id
         /\ http_NewRequest env "GET"
              (ServerURL (config sunrise) ++ "/api/get-blob?metadata_uri="
               ++ string_of_list_byte id)
            = inr req.
Proof.
  assert (E : snd (Get env sunrise ctx ids namespace)
              = snd (Get_loop env sunrise 0 ids nil_slice)).
  { unfold Get. now destruct (Get_loop env sunrise 0 ids nil_slice) as [[e|b] tr]. }
  rewrite E.
  assert (T : forall j ev,
             nth_error (snd (Get_loop env sunrise 0 ids nil_slice)) j = Some ev ->
             exists id req,
               ev = EvDo j req /\ nth_error ids j = Some id
               /\ http_NewRequest env "GET"
                    (get_blob_url sunrise (string_of_list_byte id)) = inr req).
  { intros j ev H. now apply Get_loop_trace in H. }
  split; [|exact T].
  destruct (Nat.le_gt_cases
              (List.length (snd (Get_loop env sunrise 0 ids nil_slice)))
              (List.length ids)) as [H|H]; [exact H|exfalso].
  destruct (nth_error (snd (Get_loop env sunrise 0 ids nil_slice))
              (List.length ids)) as [ev|] eqn:N.
  - destruct (T _ _ N) as (id & _ & _ & Hid & _).
    assert (nth_error ids (List.length ids) <> None) by congruence.
    apply nth_error_Some in H0. lia.
  - apply nth_error_None in N. lia.
Qed.

(** X7. A [Get] that succeeds has made exactly one call per identifier:
    when every iteration succeeds the log has as many calls as there are
    identifiers, and the call at position [k] is the one for the [k]-th
    identifier. *)
Theorem Get_one_call_per_id (env : Env) (sunrise : SunriseDA) (ctx : Context)
    (ids : list ID) (namespace : Namespace) :
  (forall k id, nth_error ids k = Some id ->
     exists b, fst (Get_fetch env sunrise k id) = inr b) ->
  List.length (snd (Get env sunrise ctx ids namespace)) = List.length ids
  /\ forall k id, nth_error ids k = Some id ->
       exists req,
         http_NewRequest env "GET" (get_blob_url sunrise (string_of_list_byte id))
         = inr req
         /\ nth_error (snd (Get env sunrise ctx ids namespace)) k
            = Some (EvDo k req).
Proof.
  intros Hall.
  assert (E : snd (Get env sunrise ctx ids namespace)
              = snd (Get_loop env sunrise 0 ids nil_slice)).
  { unfold Get. now destruct (Get_loop env sunrise 0 ids nil_slice) as [[e|b] tr]. }
  rewrite E.
  pose proof (Get_loop_trace_length env sunrise ids 0 nil_slice Hall) as Hlen.
  split; [exact Hlen|].
  intros k id Hk.
  destruct (nth_error (snd (Get_loop env sunrise 0 ids nil_slice)) k)
    as [ev|] eqn:N.
  - destruct (Get_loop_trace env sunrise ids 0 nil_slice k ev N)
      as (id' & req & -> & Hid & Hreq).
    rewrite Hk in Hid. injection Hid as <-. now exists req.
  - apply nth_error_None in N.
    assert (nth_error ids k <> None) by congruence.
    apply nth_error_Some in H. lia.
Qed.

(** Two locators of the mock store. *)
Lemma Get_one_call_per_id_witness :
  List.length (snd (Get Mock.up Mock.sunrise Mock.background
                      [list_byte_of_string "loc2"; list_byte_of_string "loc1"] []))
  = List.length [list_byte_of_string "loc2"; list_byte_of_string "loc1"]
  /\ forall k id,
       nth_error [list_byte_of_string "loc2"; list_byte_of_string "loc1"] k
       = Some id ->
       exists req,
         http_NewRequest Mock.up "GET"
           (get_blob_url Mock.sunrise (string_of_list_byte id)) = inr req
         /\ nth_error (snd (Get Mock.up Mock.sunrise Mock.background
                              [list_byte_of_string "loc2";
                               list_byte_of_string "loc1"] [])) k
            = Some (EvDo k req).
Proof.
  apply (Get_one_call_per_id Mock.up Mock.sunrise Mock.background
           [list_byte_of_string "loc2"; list_byte_of_string "loc1"] []).
  intros [|[|k]] id Hk; simpl in Hk.
  - injection Hk as <-. eexists. reflexivity.
  - injection Hk as <-. eexists. reflexivity.
  - destruct k; discriminate.
Defined.

(** X8. A nil error from [Get] means that every identifier was fetched and
    decoded: the returned list has one blob per identifier and the blob at
    position [k] is the result of the [k]-th iteration. [Get] never drops or
    reorders an identifier on success. *)
Theorem Get_success_means_all_fetched (env : Env) (sunrise : SunriseDA)
    (ctx : Context) (ids : list ID) (namespace : Namespace)
    (blobs : slice Blob) :
  fst (Get env sunrise ctx ids namespace) = (blobs, None) ->
  len blobs = List.length ids
  /\ forall k id, nth_error ids k = Some id ->
       exists b, fst (Get_fetch env sunrise k id) = inr b
                 /\ nth_error (elems blobs) k = Some b.
Proof.
  unfold Get.
  destruct (Get_loop env sunrise 0 ids nil_slice) as [[e|out] tr] eqn:L;
    cbn [fst]; intros H; [discriminate|].
  injection H as ->.
  destruct (Get_loop_ok_inv env sunrise ids 0 nil_slice blobs) as (_ & bs & -> & Hlen & Hn).
  { now rewrite L. }
  split.
  - destruct ids; [reflexivity|exact Hlen].
  - intros k id Hk. destruct (Hn k id Hk) as (b & Hb & Hf).
    exists b. split; [exact Hf|].
    destruct ids; [destruct k; discriminate|exact Hb].
Qed.

(** The two locators of the mock store that hold base64. *)
Lemma Get_success_means_all_fetched_witness :
  len (Some [Mock.blobBB; Mock.blobA])
  = List.length [list_byte_of_string "loc2"; list_byte_of_string "loc1"]
  /\ forall k id,
       nth_error [list_byte_of_string "loc2"; list_byte_of_string "loc1"] k
       = Some id ->
       exists b, fst (Get_fetch Mock.up Mock.sunrise k id) = inr b
                 /\ nth_error (elems (Some [Mock.blobBB; Mock.blobA])) k = Some b.
Proof.
  apply (Get_success_means_all_fetched Mock.up Mock.sunrise Mock.background
           [list_byte_of_string "loc2"; list_byte_of_string "loc1"] []
           (Some [Mock.blobBB; Mock.blobA])).
  reflexivity.
Defined.

(** X9. An error from [Get] is the error of the first iteration that
    failed: the blob list returned with it is nil, every identifier before
    the failing one was fetched with success, and [Get] invents no error of
    its own. *)
Theorem Get_error_is_first_failure (env : Env) (sunrise : SunriseDA)
    (ctx : Context) (ids : list ID) (namespace : Namespace)
    (blobs : slice Blob) (e : GoError) :
  fst (Get env sunrise ctx ids namespace) = (blobs, Some e) ->
  blobs = None
  /\ exists pre id post,
       ids = pre ++ id :: post
       /\ (forall k idk, nth_error pre k = Some idk ->
             exists b, fst (Get_fetch env sunrise k idk) = inr b)
       /\ fst (Get_fetch env sunrise (List.length pre) id) = inl e.
Proof.
  unfold Get.
  destruct (Get_loop env sunrise 0 ids nil_slice) as [[e'|out] tr] eqn:L;
    cbn [fst]; intros H; [|discriminate].
  injection H as <- ->. split; [reflexivity|].
  destruct (fetch_cases env sunrise ids 0)
    as [Hall|(pre & id & post & e'' & -> & Hpre & Hid)].
  - destruct (Get_loop_success env sunrise ids 0 nil_slice Hall) as (bs & Hl & _).
    rewrite L in Hl. discriminate.
  - destruct (Get_loop_failure env sunrise pre id post e'' 0 nil_slice Hpre Hid)
      as (Hfail & _).
    rewrite L in Hfail. cbn [fst] in Hfail. injection Hfail as ->.
    now exists pre, id, post.
Qed.

(** The payload stored under loc3 is not base64. *)
Lemma Get_error_is_first_failure_witness :
  @None (list Blob) = None
  /\ exists pre id post,
       [list_byte_of_string "loc1"; list_byte_of_string "loc3";
        list_byte_of_string "loc2"] = pre ++ id :: post
       /\ (forall k idk, nth_error pre k = Some idk ->
             exists b, fst (Get_fetch Mock.up Mock.sunrise k idk) = inr b)
       /\ fst (Get_fetch Mock.up Mock.sunrise (List.length pre) id)
          = inl Base64.CorruptInputError.
Proof.
  apply (Get_error_is_first_failure Mock.up Mock.sunrise Mock.background
           [list_byte_of_string "loc1"; list_byte_of_string "loc3";
            list_byte_of_string "loc2"] [] None Base64.CorruptInputError).
  reflexivity.
Defined.

Section GetStateless.

Variables (env : Env) (sunrise : SunriseDA).

(** The service answers a request the same way whenever it is asked. *)
Hypothesis stateless :
  forall k k' req, client_Do env k req = client_Do env k' req.

Lemma Get_fetch_position (k k' : nat) (id : ID) :
  fst (Get_fetch env sunrise k id) = fst (Get_fetch env sunrise k' id).
Proof.
  unfold Get_fetch, io_lift, do_request, io_ret.
  destruct (http_NewRequest env _ _) as [e|req]; cbn [io_bind]; [reflexivity|].
  rewrite (stateless k k' req).
  destruct (client_Do env k' req) as [e|response]; cbn [io_bind]; [reflexivity|].
  destruct (Body response) as [e|responseData]; cbn; [reflexivity|].
  destruct (json_Unmarshal_GetBlobResponse env responseData) as [e|blobResponse];
    cbn; [reflexivity|].
  destruct (Base64.DecodeString (resp_Blob blobResponse)); reflexivity.
Qed.

Lemma Get_loop_stateless_ok (ids : list ID) (bs : list Blob) :
  Forall2 (fun id b => fst (Get_fetch env sunrise 0 id) = inr b) ids bs ->
  forall (k0 : nat) (acc : slice Blob),
    fst (Get_loop env sunrise k0 ids acc)
    = inr (match ids with [] => acc | _ :: _ => Some (elems acc ++ bs) end).
Proof.
  induction 1 as [|id b ids bs Hb F IH]; intros k0 acc; [reflexivity|].
  rewrite (Get_fetch_position 0 k0) in Hb.
  cbn [Get_loop]. rewrite (io_bind_ok _ _ _ Hb). cbn [fst]. rewrite IH.
  destruct F; cbn [append elems]; [reflexivity|].
  now rewrite <- app_assoc.
Qed.

Lemma Get_loop_stateless_inv (ids : list ID) :
  forall (k0 : nat) (acc out : slice Blob),
    fst (Get_loop env sunrise k0 ids acc) = inr out ->
    exists bs,
      Forall2 (fun id b => fst (Get_fetch env sunrise 0 id) = inr b) ids bs
      /\ out = match ids with [] => acc | _ :: _ => Some (elems acc ++ bs) end.
Proof.
  induction ids as [|id ids IH]; intros k0 acc out; cbn [Get_loop].
  - intros H. injection H as <-. exists []. split; [constructor|reflexivity].
  - destruct (fst (Get_fetch env sunrise k0 id)) as [e|b] eqn:E.
    + rewrite (io_bind_fail _ _ _ E). discriminate.
    + rewrite (io_bind_ok _ _ _ E). cbn [fst]. intros H.
      apply IH in H as (bs & F & ->). exists (b :: bs). split.
      * constructor; [|exact F]. now rewrite (Get_fetch_position 0 k0).
      * destruct F; cbn [append elems]; [reflexivity|].
        now rewrite <- app_assoc.
Qed.

End GetStateless.

(** X10. Against a service that answers a request the same way whenever
    it is asked, fetching a concatenation is fetching the parts: when [Get]
    succeeds on [ids1] and on [ids2], it succeeds on [ids1 ++ ids2] and
    returns the blobs of [ids1] followed by the blobs of [ids2]. *)
Theorem Get_app (env : Env) (sunrise : SunriseDA) (ctx : Context)
    (ids1 ids2 : list ID) (namespace : Namespace) (blobs1 blobs2 : slice Blob) :
  (forall k k' req, client_Do env k req = client_Do env k' req) ->
  fst (Get env sunrise ctx ids1 namespace) = (blobs1, None) ->
  fst (Get env sunrise ctx ids2 namespace) = (blobs2, None) ->
  exists blobs,
    fst (Get env sunrise ctx (ids1 ++ ids2) namespace) = (blobs, None)
    /\ elems blobs = elems blobs1 ++ elems blobs2.
Proof.
  intros Hst H1 H2.
  assert (Inv : forall ids blobs,
            fst (Get env sunrise ctx ids namespace) = (blobs, None) ->
            Forall2 (fun id b => fst (Get_fetch env sunrise 0 id) = inr b)
                    ids (elems blobs)).
  { intros ids blobs. unfold Get.
    destruct (Get_loop env sunrise 0 ids nil_slice) as [[e|out] tr] eqn:L;
      cbn [fst]; intros H; [discriminate|]. injection H as ->.
    destruct (Get_loop_stateless_inv env sunrise Hst ids 0 nil_slice blobs)
      as (bs & F & ->); [now rewrite L|].
    destruct F; [constructor|]. cbn [elems app]. now constructor. }
  pose proof (Forall2_app (Inv _ _ H1) (Inv _ _ H2)) as F.
  pose proof (Get_loop_stateless_ok env sunrise Hst _ _ F 0 nil_slice) as Hl.
  unfold Get.
  destruct (Get_loop env sunrise 0 (ids1 ++ ids2) nil_slice) as [r tr].
  cbn [fst] in Hl. subst r. eexists. split; [reflexivity|].
  destruct (ids1 ++ ids2) eqn:E; [|reflexivity].
  apply app_eq_nil in E as [-> ->]. inversion F as [E0|]. symmetry. exact E0.
Qed.

(** The mock store, asked for loc2 and then for loc1. *)
Lemma Get_app_witness :
  exists blobs,
    fst (Get Mock.up Mock.sunrise Mock.background
           ([list_byte_of_string "loc2"] ++ [list_byte_of_string "loc1"]) [])
    = (blobs, None)
    /\ elems blobs = elems (Some [Mock.blobBB]) ++ elems (Some [Mock.blobA]).
Proof.
  apply (Get_app Mock.up Mock.sunrise Mock.background
           [list_byte_of_string "loc2"] [list_byte_of_string "loc1"] []
           (Some [Mock.blobBB]) (Some [Mock.blobA])).
  - reflexivity.
  - reflexivity.
  - reflexivity.
Defined.

(** ** GetIDs: which heights share an identifier *)

(** X11. Two heights get the same identifier from [GetIDs] exactly when
    they agree modulo 2^32: heights below 2^32 never collide, and a height
    collides with every height that differs from it by a multiple of
    2^32. *)
Theorem GetIDs_same_identifier_iff (c : SunriseDA) (ctx : Context)
    (namespace : Namespace) (h1 h2 : N) :
  GetIDs c ctx h1 namespace = GetIDs c ctx h2 namespace
  <-> h1 mod 2 ^ 32 = h2 mod 2 ^ 32.
Proof.
  change (h1 mod 2 ^ 32) with (uint32 h1). change (h2 mod 2 ^ 32) with (uint32 h2).
  split.
  - intros H.
    destruct (be_value_PutUint32 (uint32 h1) [x00; x00; x00; x00] (uint32_lt h1))
      as (a0 & a1 & a2 & a3 & Ha & Va).
    destruct (be_value_PutUint32 (uint32 h2) [x00; x00; x00; x00] (uint32_lt h2))
      as (b0 & b1 & b2 & b3 & Hb & Vb).
    unfold GetIDs in H.
    change (make_bytes 8) with [x00; x00; x00; x00; x00; x00; x00; x00] in H.
    rewrite Ha, Hb in H. injection H as -> -> -> ->.
    now rewrite <- Va, <- Vb.
  - intros H. rewrite !GetIDs_eq, H. reflexivity.
Qed.

(** ** The publish request *)

Section Payload.

Import Base64.

(** The characters the encoder produces. *)
Lemma EncodeToString_alphabet (src : list byte) :
  forall c : ascii,
    In c (list_ascii_of_string (EncodeToString src)) ->
    c = padChar \/ exists i, i < 64 /\ c = encode i.
Proof.
  assert (A : forall i, i < 64 ->
            encode i = padChar \/ exists i', i' < 64 /\ encode i = encode i')
    by (intros i Hi; right; now exists i).
  induction src as [|s0|s0 s1|s0 s1 s2 rest IH] using list_ind_by_3; intros c;
    cbn [EncodeToString list_ascii_of_string In].
  - intros [].
  - intros [<-|[<-|[<-|[<-|[]]]]]; auto; apply A, sextet_lt.
  - intros [<-|[<-|[<-|[<-|[]]]]]; auto; apply A, sextet_lt.
  - intros [<-|[<-|[<-|[<-|H]]]]; auto;
      apply A; (apply sextet_lt || apply land_63_lt).
Qed.

Lemma EncodeToString_length (src : list byte) :
  String.length (EncodeToString src) = (4 * ((List.length src + 2) / 3))%nat.
Proof.
  induction src as [|s0|s0 s1|s0 s1 s2 rest IH] using list_ind_by_3;
    try reflexivity.
  cbn [EncodeToString String.length List.length]. rewrite IH.
  replace (S (S (S (List.length rest))) + 2)%nat
    with (List.length rest + 2 + 1 * 3)%nat by lia.
  rewrite Nat.div_add by discriminate. lia.
Qed.

End Payload.

(** X12. The request [Submit] builds for a blob carries the protocol tag
    "ipfs" and the shard counts of the configuration, and its payload is
    plain base64: four characters for every three bytes of the blob, rounded
    up, each a character of the standard alphabet or the padding [=]. *)
Theorem publish_request_payload (sunrise : SunriseDA) (blob : Blob) :
  req_Protocol (publish_request sunrise blob) = "ipfs"%string
  /\ req_DataShardCount (publish_request sunrise blob)
     = Z.of_N (DataShardCount (config sunrise))
  /\ req_ParityShardCount (publish_request sunrise blob)
     = Z.of_N (ParityShardCount (config sunrise))
  /\ String.length (req_Blob (publish_request sunrise blob))
     = (4 * ((List.length blob + 2) / 3))%nat
  /\ forall c,
       In c (list_ascii_of_string (req_Blob (publish_request sunrise blob))) ->
       c = Base64.padChar
       \/ In c (list_ascii_of_string Base64.encodeStd).
Proof.
  repeat split.
  - apply EncodeToString_length.
  - intros c H. apply EncodeToString_alphabet in H as [->|(i & Hi & ->)];
      [now left|right].
    assert (T : forallb
                  (fun n => existsb (Ascii.eqb (Base64.encode (N.of_nat n)))
                              (list_ascii_of_string Base64.encodeStd))
                  (seq 0 64) = true) by (vm_compute; reflexivity).
    rewrite forallb_forall in T.
    specialize (T (N.to_nat i)). rewrite N2Nat.id in T.
    assert (Hin : In (N.to_nat i) (seq 0 64)) by (apply in_seq; lia).
    apply T, existsb_exists in Hin as (d & Hd & E).
    apply Ascii.eqb_eq in E. now subst d.
Qed.

(** X13. The payload determines the blob: two blobs whose requests carry
    the same payload are the same blob, whatever the configurations. No two
    different blobs are published as the same data. *)
Theorem publish_request_injective (sunrise1 sunrise2 : SunriseDA)
    (blob1 blob2 : Blob) :
  req_Blob (publish_request sunrise1 blob1)
  = req_Blob (publish_request sunrise2 blob2) ->
  blob1 = blob2.
Proof.
  intros H. cbn [publish_request req_Blob] in H.
  apply (f_equal Base64.DecodeString) in H.
  rewrite !DecodeString_EncodeToString in H. now injection H.
Qed.

(** The same blob under two configurations. *)
Lemma publish_request_injective_witness : Mock.blobBB = Mock.blobBB.
Proof.
  apply (publish_request_injective Mock.sunrise
           (NewSunriseDA Mock.cancelled Mock.cfg) Mock.blobBB Mock.blobBB).
  reflexivity.
Defined.

(** ** A whole batch, published and fetched *)

(** The blobs of a batch, looked up position by position. *)
Lemma flat_map_nth_error_seq (A : Type) (l pre : list A) :
  flat_map
    (fun i => match nth_error (pre ++ l) i with Some a => [a] | None => [] end)
    (seq (List.length pre) (List.length l))
  = l.
Proof.
  revert pre. induction l as [|a l IH]; intros pre; [reflexivity|].
  cbn [List.length seq flat_map].
  rewrite nth_error_app2, Nat.sub_diag by lia. cbn [nth_error app]. f_equal.
  specialize (IH (pre ++ [a])).
  rewrite <- app_assoc, length_app in IH. cbn [app List.length] in IH.
  rewrite Nat.add_1_r in IH. exact IH.
Qed.

(** X14. Fetching what was published returns the batch. Let every publish
    of a batch succeed and the store be consistent (for the locator returned
    for a blob, the fetch endpoint answers with the base64 payload of that
    blob's publish request, whenever asked). Then [Get] on the identifiers
    [Submit] collected returns, with no error, exactly the blobs of the
    batch: in the order in which the goroutines sent, a permutation of the
    input. *)
Theorem Submit_then_Get_batch (env : Env) (sunrise : SunriseDA) (ctx : Context)
    (daBlobs : list Blob) (namespace : Namespace) (sched : list nat) :
  schedule_of (List.length daBlobs) sched ->
  (forall i blob, nth_error daBlobs i = Some blob ->
     exists r, publish env sunrise i blob = inr r) ->
  (forall i blob r k,
     nth_error daBlobs i = Some blob ->
     publish env sunrise i blob = inr r ->
     exists req response body,
       http_NewRequest env "GET" (get_blob_url sunrise (MetadataUri r)) = inr req
       /\ client_Do env k req = inr response
       /\ Body response = inr body
       /\ json_Unmarshal_GetBlobResponse env body
          = inr {| resp_Blob := req_Blob (publish_request sunrise blob) |}) ->
  exists blobs,
    fst (Get env sunrise ctx
           (elems (Submit_collect
                     (resultChan (run_workers env sunrise daBlobs sched))))
           namespace)
    = (blobs, None)
    /\ Permutation (elems blobs) daBlobs
    /\ Forall2 (fun i b => nth_error daBlobs i = Some b) sched (elems blobs).
Proof.
  intros Hs Hok Hstore.
  pose proof (collected_in_send_order env sunrise daBlobs sched Hs Hok) as F.
  set (ids := elems (Submit_collect
                       (resultChan (run_workers env sunrise daBlobs sched)))) in *.
  set (g := fun i => match nth_error daBlobs i with
                     | Some b => [b]
                     | None => @nil Blob
                     end).
  assert (Hfetch : forall j id,
             (exists blob r, nth_error daBlobs j = Some blob
                             /\ publish env sunrise j blob = inr r
                             /\ id = list_byte_of_string (MetadataUri r)) ->
             exists blob, nth_error daBlobs j = Some blob
                          /\ forall k, fst (Get_fetch env sunrise k id) = inr blob).
  { intros j id (blob & r & Hb & Hp & ->). exists blob. split; [exact Hb|].
    intros k.
    destruct (Hstore j blob r k Hb Hp) as (req & resp & body & Hr & Hd & Hbo & Hj).
    unfold Get_fetch, io_lift, do_request.
    rewrite string_of_list_byte_of_string, Hr. cbn [io_bind].
    rewrite Hd. cbn [io_bind]. rewrite Hbo. cbn [io_bind].
    rewrite Hj. cbn [io_bind resp_Blob publish_request req_Blob].
    now rewrite DecodeString_EncodeToString. }
  assert (Hloop : forall k0 acc,
             fst (Get_loop env sunrise k0 ids acc)
             = inr (match ids with
                    | [] => acc
                    | _ :: _ => Some (elems acc ++ flat_map g sched)
                    end)
             /\ Forall2 (fun i b => nth_error daBlobs i = Some b)
                        sched (flat_map g sched)).
  { clearbody ids. clear Hs.
    induction F as [|j id js ids' Hj F IH]; intros k0 acc.
    - split; [reflexivity|constructor].
    - destruct (Hfetch j id Hj) as (blob & Hb & Hf).
      destruct (IH (S k0) (append acc blob)) as (IHl & IHf).
      cbn [Get_loop flat_map]. rewrite (io_bind_ok _ _ _ (Hf k0)). cbn [fst].
      assert (Hg : g j = [blob]) by (unfold g; now rewrite Hb).
      rewrite IHl, !Hg. cbn [app]. split.
      + destruct F; cbn [append elems flat_map]; [reflexivity|].
        now rewrite <- app_assoc.
      + now constructor. }
  destruct (Hloop 0%nat nil_slice) as (Hl & Hf).
  unfold Get. destruct (Get_loop env sunrise 0 ids nil_slice) as [r tr].
  cbn [fst] in Hl. subst r.
  assert (Hperm : Permutation (flat_map g sched) daBlobs).
  { apply Permutation_trans with (flat_map g (seq 0 (List.length daBlobs))).
    - now apply Permutation_flat_map.
    - pose proof (flat_map_nth_error_seq Blob daBlobs []) as E.
      cbn [app List.length] in E. unfold g. rewrite E. apply Permutation_refl. }
  eexists. split; [reflexivity|].
  destruct ids eqn:E.
  - inversion F as [E0|]; subst. cbn [elems nil_slice flat_map] in *.
    split; [exact Hperm|constructor].
  - cbn [elems nil_slice app]. now split.
Qed.

(** The batch ["A"; "BB"], "BB" sent first, against the mock store. *)
Lemma Submit_then_Get_batch_witness :
  exists blobs,
    fst (Get Mock.up Mock.sunrise Mock.background
           (elems (Submit_collect
                     (resultChan (run_workers Mock.up Mock.sunrise
                                    [Mock.blobA; Mock.blobBB] [1; 0]%nat))))
           [])
    = (blobs, None)
    /\ Permutation (elems blobs) [Mock.blobA; Mock.blobBB]
    /\ Forall2 (fun i b => nth_error [Mock.blobA; Mock.blobBB] i = Some b)
               [1; 0]%nat (elems blobs).
Proof.
  apply (Submit_then_Get_batch Mock.up Mock.sunrise Mock.background
           [Mock.blobA; Mock.blobBB] [] [1; 0]%nat).
  - apply perm_swap.
  - intros i blob _. eexists. reflexivity.
  - intros [|[|i]] blob r k Hb Hp; simpl in Hb.
    + injection Hb as <-. injection Hp as <-. do 3 eexists.
      repeat split; reflexivity.
    + injection Hb as <-. injection Hp as <-. do 3 eexists.
      repeat split; reflexivity.
    + destruct i; discriminate.
Defined.

(** X15. A blob within the ceiling [MaxBlobSize] announces is sent as a
    payload of at most 2,730,668 characters: the size of the largest publish
    request is fixed by the ceiling. *)
Theorem publish_request_payload_bound (sunrise : SunriseDA) (ctx : Context)
    (blob : Blob) :
  N.of_nat (List.length blob) <= fst (MaxBlobSize sunrise ctx) ->
  N.of_nat (String.length (req_Blob (publish_request sunrise blob))) <= 2730668.
Proof.
  intros H. cbn [publish_request req_Blob]. rewrite EncodeToString_length.
  change (fst (MaxBlobSize sunrise ctx)) with 2048000 in H.
  rewrite Nat2N.inj_mul, Nat2N.inj_div, Nat2N.inj_add.
  change (N.of_nat 4) with 4. change (N.of_nat 3) with 3.
  change (N.of_nat 2) with 2.
  zify. Z.to_euclidean_division_equations. lia.
Qed.

(** The two-byte blob "BB". *)
Lemma publish_request_payload_bound_witness :
  N.of_nat (String.length (req_Blob (publish_request Mock.sunrise Mock.blobBB)))
  <= 2730668.
Proof.
  apply (publish_request_payload_bound Mock.sunrise Mock.cancelled Mock.blobBB).
  vm_compute. discriminate.
Defined.
